(** * LineupLogic: the projection-and-recommendation engine of backend/app/main.py

    A shallow embedding of the schedule resolver, the team schedule cache,
    the projection calculator and the waiver recommendation loop, with the
    properties the specification states about them.

    Modelling conventions.
    - Python [str] values are [string]s of ASCII characters; [strip] and
      [upper] act on the ASCII range.
    - Python [int] is [Z]; Python [float] is [Q] (exact rationals, no NaN and
      no rounding error).
    - An instant is a number of microseconds since the Unix epoch, in UTC.
      A [datetime] holds an instant of the years 1 to 9999, and arithmetic
      on a [datetime] that leaves this range raises [OverflowError], as does
      a [timedelta] of more than 999999999 days.  A calendar day is a day
      number since the epoch, which stands for its [%Y%m%d] text; the day
      numbers of a refresh are taken as they come (a refresh reaches the end
      of the calendar only after millions of answered queries).  One request
      reads one clock value, and the scoreboard answers a given day the same
      way throughout a request.
    - What the program takes from outside is a [World]: the clock, the
      outcome of a scoreboard query for each day, and the behaviour of
      [datetime.fromisoformat].
    - The module-level dictionary [_TEAM_SCHEDULE_CACHE] is a record that is
      threaded through every call, together with a log of the refreshes and
      scoreboard queries that were performed.
    - Exceptions are values: a computation returns [Ok v] or [Raise e] and
      the state it reached. *)

From Stdlib Require Import ZArith QArith List String Ascii Bool Lia.
From stdpp Require Import gmap strings list fin_maps sorting pretty.

Set Warnings "-register-all".

Local Open Scope string_scope.
Local Open Scope Z_scope.

(** ** Strings *)

Module Str.

(** [str.isspace] on the ASCII range: TAB..CR, FS..US and the space. *)
Definition is_space (c : ascii) : bool :=
  let n := nat_of_ascii c in
  ((9 <=? n)%nat && (n <=? 13)%nat) || ((28 <=? n)%nat && (n <=? 32)%nat).

Definition upper_char (c : ascii) : ascii :=
  let n := nat_of_ascii c in
  if ((97 <=? n)%nat && (n <=? 122)%nat)%bool then ascii_of_nat (n - 32) else c.

Fixpoint upper (s : string) : string :=
  match s with
  | EmptyString => EmptyString
  | String c r => String (upper_char c) (upper r)
  end.

Fixpoint lstrip (s : string) : string :=
  match s with
  | EmptyString => EmptyString
  | String c r => if is_space c then lstrip r else s
  end.

(** [rstrip]: a character is dropped when it is a space and everything
    after it has been dropped. *)
Fixpoint rstrip (s : string) : string :=
  match s with
  | EmptyString => EmptyString
  | String c r =>
      match rstrip r with
      | EmptyString => if is_space c then EmptyString else String c EmptyString
      | r' => String c r'
      end
  end.

Definition strip (s : string) : string := rstrip (lstrip s).

(** [s.endswith("Z")] and [s[:-1]]. *)
Fixpoint ends_with_Z (s : string) : bool :=
  match s with
  | EmptyString => false
  | String c EmptyString => Ascii.eqb c "Z"%char
  | String _ r => ends_with_Z r
  end.

Fixpoint drop_last (s : string) : string :=
  match s with
  | EmptyString => EmptyString
  | String _ EmptyString => EmptyString
  | String c r => String c (drop_last r)
  end.

End Str.

(** ** Team abbreviation normalizer *)

Definition NBA_TEAM_ABBREVS : list string :=
  [ "ATL";"BOS";"BKN";"CHA";"CHI";"CLE";"DAL";"DEN";"DET";"GSW";"HOU";"IND";
    "LAC";"LAL";"MEM";"MIA";"MIL";"MIN";"NOP";"NYK";"OKC";"ORL";"PHI";"PHX";
    "POR";"SAC";"SAS";"TOR";"UTA";"WAS" ].

Definition TEAM_ABBREV_NORMALIZE : list (string * string) :=
  [ ("GS", "GSW"); ("NO", "NOP"); ("SA", "SAS"); ("PHO", "PHX");
    ("BK", "BKN"); ("NY", "NYK"); ("WSH", "WAS") ].

(** [k in NBA_TEAM_ABBREVS] *)
Definition is_nba_team (k : string) : bool :=
  existsb (String.eqb k) NBA_TEAM_ABBREVS.

(** [d.get(k, default)] on an association table. *)
Fixpoint dict_get (d : list (string * string)) (k dflt : string) : string :=
  match d with
  | [] => dflt
  | (k', v) :: r => if String.eqb k k' then v else dict_get r k dflt
  end.

(** [normalize_team_abbrev]: [None] and the empty string are falsy. *)
Definition normalize_team_abbrev (abbrev : option string) : option string :=
  match abbrev with
  | None => None
  | Some EmptyString => None
  | Some s =>
      let a := Str.upper (Str.strip s) in
      let a := dict_get TEAM_ABBREV_NORMALIZE a a in
      if is_nba_team a then Some a else None
  end.

(** ** Players and their schedules *)

(** A scoring attribute as [float()] sees it: absent, a value that converts
    (with the number it converts to), or a value [float()] rejects. *)
Inductive pyattr : Type :=
| AttrNone
| AttrNum (q : Q)
| AttrNonNumeric.

(** A schedule entry: the five aliased date fields, each with the text [str]
    gives for its value, [None] when the field is missing or null.  A dict
    entry and an object entry read the same way. *)
Record Game : Type := {
  g_date : option string;
  g_startDate : option string;
  g_startTime : option string;
  g_gameDate : option string;
  g_gameTime : option string
}.

(** The [schedule] attribute: missing or [None], a list, or a value that is
    not a list (a dict, a tuple, ...). *)
Inductive Schedule : Type :=
| SchedNone
| SchedList (l : list Game)
| SchedNotList.

Record Player : Type := {
  playerId : option Z;
  player_id : option Z;
  id_ : option Z;
  espn_id : option Z;
  name : option string;
  position : option string;
  proTeam : option string;
  injuryStatus : option string;
  avg_points : option Q;
  projected_avg_points : pyattr;
  schedule : Schedule
}.

Record Team : Type := {
  team_id : Z;
  team_name : string;
  wins : option Z;
  losses : option Z;
  roster : list Player
}.

(** What [get_nba_league()] returns: the teams and the free-agent query. *)
Record League : Type := {
  teams : list Team;
  free_agents : Z -> list Player
}.

(** [is_unavailable] *)
Definition is_unavailable (player : Player) : bool :=
  let status := Str.upper (Str.strip (default "" (injuryStatus player))) in
  String.eqb status "OUT" || String.eqb status "SUSPENSION".

(** [get_player_id]: the first alias that is not [None].  (The [vars]
    fallback reads the same four attributes and finds nothing new.) *)
Definition get_player_id (player : Player) : option Z :=
  match playerId player with
  | Some v => Some v
  | None =>
      match player_id player with
      | Some v => Some v
      | None =>
          match id_ player with
          | Some v => Some v
          | None => espn_id player
          end
      end
  end.

(** [get_points_per_game] *)
Definition get_points_per_game (player : Player) : Q :=
  match projected_avg_points player with
  | AttrNum q => q
  | AttrNone | AttrNonNumeric => default 0%Q (avg_points player)
  end.

(** ** The world a request runs in *)

(** What one scoreboard query does: it raises, or it returns the decoded
    JSON document. *)
Inductive json : Type :=
| JNull
| JBool (b : bool)
| JInt (z : Z)
| JFloat (q : Q)
| JStr (s : string)
| JList (l : list json)
| JDict (l : list (string * json)).

Inductive exn : Type :=
| HTTPError (code : Z) (msg : string)
| URLError (msg : string)
| PyError (cls msg : string)
| HTTPException (status_code : Z) (detail : string).

Inductive result (A : Type) : Type :=
| Ok (a : A)
| Raise (e : exn).
Arguments Ok {A} a.
Arguments Raise {A} e.

Definition rbind {A B} (r : result A) (k : A -> result B) : result B :=
  match r with
  | Ok a => k a
  | Raise e => Raise e
  end.

Notation "'let?' x ':=' r 'in' k" := (rbind r (fun x => k))
  (at level 10, x pattern, r at level 100, k at level 200).

(** ** Instants, and the range of [datetime] *)

Definition US_PER_SECOND : Z := 1000000.
Definition US_PER_DAY : Z := 86400 * US_PER_SECOND.

(** [datetime.min] is 0001-01-01T00:00:00, the start of day -719162 since the
    epoch; [datetime.max] is 9999-12-31T23:59:59.999999, the last microsecond
    of day 2932896. *)
Definition DATETIME_MIN : Z := -719162 * US_PER_DAY.
Definition DATETIME_MAX : Z := 2932897 * US_PER_DAY - 1.

Definition datetime_in_range (t : Z) : bool :=
  (DATETIME_MIN <=? t) && (t <=? DATETIME_MAX).

Definition TIMEDELTA_MAX_DAYS : Z := 999999999.

(** [timedelta(days=days)], in microseconds.  Both refusals are an
    [OverflowError]; the text depends on whether the number of days fits a
    C [int]. *)
Definition timedelta_days (days : Z) : result Z :=
  if Z.abs days <=? TIMEDELTA_MAX_DAYS then Ok (days * US_PER_DAY)
  else if (- 2 ^ 31 <=? days) && (days <? 2 ^ 31) then
    Raise (PyError "OverflowError"
             ("days=" ++ pretty days ++ "; must have magnitude <= 999999999")%string)
  else Raise (PyError "OverflowError" "Python int too large to convert to C int").

(** [dt + delta] on a [datetime]. *)
Definition datetime_add (dt delta : Z) : result Z :=
  if datetime_in_range (dt + delta) then Ok (dt + delta)
  else Raise (PyError "OverflowError" "date value out of range").

(** - [clock]: the instant read by [time.time()] and [datetime.now(utc)];
    - [scoreboard d]: the outcome of [_fetch_espn_nba_scoreboard_for_date]
      for day number [d];
    - [fromisoformat s]: [None] when [datetime.fromisoformat] raises, else
      the wall-clock instant of the [datetime] it returns and the UTC offset
      if the text carries one. *)
Record World : Type := {
  clock : Z;
  scoreboard : Z -> result json;
  fromisoformat : string -> option (Z * option Z)
}.

(** [a or b or ...] followed by [if not dt_str: return None]. *)
Fixpoint first_truthy (l : list (option string)) : option string :=
  match l with
  | [] => None
  | Some (String c r) :: _ => Some (String c r)
  | _ :: rest => first_truthy rest
  end.

(** [_parse_game_datetime]: the instant in UTC, or [None].  A text without
    an offset is read as UTC.  With an offset, [astimezone] subtracts it, and
    the [OverflowError] it raises when the result is no [datetime] is caught
    like every other exception of the [try]. *)
Definition _parse_game_datetime (w : World) (g : Game) : option Z :=
  match first_truthy [g_date g; g_startDate g; g_startTime g;
                      g_gameDate g; g_gameTime g] with
  | None => None
  | Some dt_str =>
      let s := Str.strip dt_str in
      let s := if Str.ends_with_Z s then (Str.drop_last s ++ "+00:00")%string else s in
      match fromisoformat w s with
      | None => None
      | Some (wall, Some offset) =>
          if datetime_in_range (wall - offset) then Some (wall - offset) else None
      | Some (wall, None) => Some wall
      end
  end.

(** [schedule_has_parsable_dates] *)
Definition schedule_has_parsable_dates (w : World) (player : Player) : bool :=
  match schedule player with
  | SchedList sched => existsb (fun g => bool_decide (is_Some (_parse_game_datetime w g))) sched
  | SchedNone | SchedNotList => false
  end.

(** [games_next_n_days_from_player_schedule], with [now] read from the
    clock.  A schedule that is missing, empty or not a list gives 0 before
    the window is computed; otherwise [now + timedelta(days=days)] is
    computed first, outside any [try]. *)
Definition games_next_n_days_from_player_schedule
    (w : World) (player : Player) (days : Z) : result Z :=
  match schedule player with
  | SchedList (g0 :: rest) =>
      let sched := g0 :: rest in
      let now := clock w in
      let? delta := timedelta_days days in
      let? end_ := datetime_add now delta in
      Ok (fold_left
            (fun count g =>
               match _parse_game_datetime w g with
               | None => count
               | Some dt => if (now <=? dt) && (dt <=? end_) then count + 1 else count
               end)
            sched 0)
  | SchedList [] | SchedNone | SchedNotList => Ok 0
  end.

(** ** The team schedule cache and the computation monad *)

(** [_TEAM_SCHEDULE_CACHE]; [ts] is kept in microseconds. *)
Record TeamScheduleCache : Type := {
  cache_ts : Z;
  cache_days : option Z;
  cache_counts : gmap string Z;
  cache_last_error : option string;
  cache_last_status : option Z
}.

Definition initial_cache : TeamScheduleCache :=
  {| cache_ts := 0; cache_days := None; cache_counts := ∅;
     cache_last_error := None; cache_last_status := None |}.

(** What the log records: a call of [_compute_team_games_next_n_days] and a
    scoreboard query for one day. *)
Inductive event : Type :=
| EvRefresh (days : Z)
| EvFetch (day : Z).

Record State : Type := {
  cache : TeamScheduleCache;
  log : list event
}.

Definition M (A : Type) : Type := State -> result A * State.

Definition ret {A} (a : A) : M A := fun s => (Ok a, s).

Definition raise {A} (e : exn) : M A := fun s => (Raise e, s).

Definition bind {A B} (m : M A) (k : A -> M B) : M B :=
  fun s =>
    match m s with
    | (Ok a, s') => k a s'
    | (Raise e, s') => (Raise e, s')
    end.

(** [try: m except ... as e: h e] *)
Definition try_except {A} (m : M A) (h : exn -> M A) : M A :=
  fun s =>
    match m s with
    | (Ok a, s') => (Ok a, s')
    | (Raise e, s') => h e s'
    end.

Definition get_cache : M TeamScheduleCache := fun s => (Ok (cache s), s).

Definition set_cache (c : TeamScheduleCache) : M unit :=
  fun s => (Ok tt, {| cache := c; log := log s |}).

Definition emit (ev : event) : M unit :=
  fun s => (Ok tt, {| cache := cache s; log := (log s ++ [ev])%list |}).

Definition lift {A} (r : result A) : M A := fun s => (r, s).

Notation "'let*' x ':=' m 'in' k" := (bind m (fun x => k))
  (at level 10, x pattern, m at level 100, k at level 200).

Fixpoint fold_result {A B} (f : B -> A -> result B) (l : list A) (b : B) : result B :=
  match l with
  | [] => Ok b
  | x :: r => let? b' := f b x in fold_result f r b'
  end.

Fixpoint mapM {A B} (f : A -> M B) (l : list A) : M (list B) :=
  match l with
  | [] => ret []
  | x :: r => let* y := f x in let* ys := mapM f r in ret (y :: ys)
  end.

(** ** JSON values as Python reads them *)

Definition type_name (v : json) : string :=
  match v with
  | JNull => "NoneType"
  | JBool _ => "bool"
  | JInt _ => "int"
  | JFloat _ => "float"
  | JStr _ => "str"
  | JList _ => "list"
  | JDict _ => "dict"
  end.

Definition truthy (v : json) : bool :=
  match v with
  | JNull => false
  | JBool b => b
  | JInt z => negb (z =? 0)
  | JFloat q => negb (Qeq_bool q 0)
  | JStr s => negb (String.eqb s "")
  | JList l => negb (bool_decide (length l = 0%nat))
  | JDict l => negb (bool_decide (length l = 0%nat))
  end.

(** [a or b] *)
Definition py_or (a b : json) : json := if truthy a then a else b.

(** The value a decoded object holds for a key: the last binding wins. *)
Fixpoint assoc_last (l : list (string * json)) (k : string) : option json :=
  match l with
  | [] => None
  | (k', v) :: r =>
      match assoc_last r k with
      | Some x => Some x
      | None => if String.eqb k k' then Some v else None
      end
  end.

(** [v.get(k, dflt)]: only a dict has [get]. *)
Definition py_get (v : json) (k : string) (dflt : json) : result json :=
  match v with
  | JDict l => Ok (default dflt (assoc_last l k))
  | _ => Raise (PyError "AttributeError"
                  ("'" ++ type_name v ++ "' object has no attribute 'get'")%string)
  end.

Fixpoint chars (s : string) : list json :=
  match s with
  | EmptyString => []
  | String c r => JStr (String c EmptyString) :: chars r
  end.

Fixpoint dict_keys (l : list (string * json)) (seen : list string) : list json :=
  match l with
  | [] => []
  | (k, _) :: r =>
      if existsb (String.eqb k) seen then dict_keys r seen
      else JStr k :: dict_keys r (k :: seen)
  end.

(** [for x in v] *)
Definition py_iter (v : json) : result (list json) :=
  match v with
  | JList l => Ok l
  | JStr s => Ok (chars s)
  | JDict l => Ok (dict_keys l [])
  | _ => Raise (PyError "TypeError"
                  ("'" ++ type_name v ++ "' object is not iterable")%string)
  end.

(** [v[0]] *)
Definition py_index0 (v : json) : result json :=
  match v with
  | JList (x :: _) => Ok x
  | JList [] => Raise (PyError "IndexError" "list index out of range")
  | JStr (String c _) => Ok (JStr (String c EmptyString))
  | JStr EmptyString => Raise (PyError "IndexError" "string index out of range")
  | JDict _ => Raise (PyError "KeyError" "0")
  | _ => Raise (PyError "TypeError"
                  ("'" ++ type_name v ++ "' object is not subscriptable")%string)
  end.

(** [normalize_team_abbrev] applied to a decoded value.  The text [str]
    gives for a number, a boolean, a list or a dict is no team code and no
    alias, so only a string can normalize. *)
Definition normalize_json (v : json) : option string :=
  match v with
  | JStr s => normalize_team_abbrev (Some s)
  | _ => None
  end.

(** ** Scoreboard aggregation *)

(** [counts[abbrev] += 1] on a [Counter] *)
Definition counter_incr (counts : gmap string Z) (k : string) : gmap string Z :=
  <[k := default 0 (counts !! k) + 1]> counts.

(** The body of [for c in competitors] *)
Definition count_competitor (counts : gmap string Z) (c : json) : result (gmap string Z) :=
  let? team := py_get c "team" (JDict []) in
  let team := py_or team (JDict []) in
  let? abbreviation := py_get team "abbreviation" JNull in
  match normalize_json abbreviation with
  | Some abbrev => Ok (counter_incr counts abbrev)
  | None => Ok counts
  end.

(** The body of [for ev in events] *)
Definition count_event (counts : gmap string Z) (ev : json) : result (gmap string Z) :=
  let? comps := py_get ev "competitions" (JList []) in
  let comps := py_or comps (JList []) in
  if negb (truthy comps) then Ok counts
  else
    let? comp0 := py_index0 comps in
    let? competitors := py_get comp0 "competitors" (JList []) in
    let competitors := py_or competitors (JList []) in
    let? cs := py_iter competitors in
    fold_result count_competitor cs counts.

(** What one day's document adds to the counter. *)
Definition count_scoreboard (counts : gmap string Z) (data : json) : result (gmap string Z) :=
  let? events := py_get data "events" (JList []) in
  let events := py_or events (JList []) in
  let? evs := py_iter events in
  fold_result count_event evs counts.

(** [_fetch_espn_nba_scoreboard_for_date]: the query is logged. *)
Definition _fetch_espn_nba_scoreboard_for_date (w : World) (day : Z) : M json :=
  let* _ := emit (EvFetch day) in lift (scoreboard w day).

(** The loop [for i in range(days + 1)], over the days still to query. *)
Fixpoint compute_loop (w : World) (ds : list Z) (counts : gmap string Z)
  : M (gmap string Z) :=
  match ds with
  | [] => ret counts
  | d :: rest =>
      let* data := _fetch_espn_nba_scoreboard_for_date w d in
      let* counts' := lift (count_scoreboard counts data) in
      compute_loop w rest counts'
  end.

Definition window_days (w : World) (days : Z) : list Z :=
  let now_date := clock w `div` US_PER_DAY in
  (fun i => now_date + i) <$> seqZ 0 (days + 1).

(** [_compute_team_games_next_n_days] *)
Definition _compute_team_games_next_n_days (w : World) (days : Z) : M (gmap string Z) :=
  let* _ := emit (EvRefresh days) in
  let* counts := compute_loop w (window_days w days) ∅ in
  ret (filter (fun kv : string * Z => Is_true (is_nba_team kv.1)) counts).

Definition cache_ok (c : TeamScheduleCache) (now_ts days ttl_seconds : Z) : bool :=
  bool_decide (cache_days c = Some days)
  && (now_ts - cache_ts c <? ttl_seconds * US_PER_SECOND)
  && bool_decide (0 < size (cache_counts c))%nat.

Definition exn_str (e : exn) : string :=
  match e with
  | HTTPError _ msg => msg
  | URLError msg => msg
  | PyError _ msg => msg
  | HTTPException _ detail => detail
  end.

Definition failed_cache (now_ts days : Z) (err : string) (status : option Z)
  : TeamScheduleCache :=
  {| cache_ts := now_ts; cache_days := Some days; cache_counts := ∅;
     cache_last_error := Some err; cache_last_status := status |}.

(** [get_team_games_cache] *)
Definition get_team_games_cache (w : World) (days ttl_seconds : Z) : M (gmap string Z) :=
  let now_ts := clock w in
  let* c := get_cache in
  if cache_ok c now_ts days ttl_seconds then ret (cache_counts c)
  else
    try_except
      (let* counts := _compute_team_games_next_n_days w days in
       let* _ := set_cache {| cache_ts := now_ts; cache_days := Some days;
                              cache_counts := counts;
                              cache_last_error := None;
                              cache_last_status := Some 200 |} in
       ret counts)
      (fun e =>
         match e with
         | HTTPError code _ =>
             let* _ := set_cache (failed_cache now_ts days
                                    ("HTTPError: " ++ exn_str e)%string (Some code)) in
             ret ∅
         | URLError _ =>
             let* _ := set_cache (failed_cache now_ts days
                                    ("URLError: " ++ exn_str e)%string None) in
             ret ∅
         | _ =>
             let* _ := set_cache (failed_cache now_ts days
                                    ("Exception: " ++ exn_str e)%string None) in
             ret ∅
         end).

Definition DEFAULT_TTL : Z := 900.

(** ** Schedule resolver and projection calculator *)

(** [round(x)] on a float: to the nearest integer, a tie to the even one. *)
Definition py_round (x : Q) : Z :=
  let n := Qnum x in
  let d := Z.pos (Qden x) in
  let fl := n `div` d in
  match (2 * (n `mod` d)) ?= d with
  | Lt => fl
  | Gt => fl + 1
  | Eq => if Z.even fl then fl else fl + 1
  end.

(** [round(x, 2)] *)
Definition py_round2 (x : Q) : Q := (py_round (x * 100) # 100)%Q.

(** [sum(present)] and [sum(present) / len(present)] *)
Definition sum_values (present : list Z) : Z := foldr Z.add 0 present.

Definition league_avg (present : list Z) : Q :=
  (inject_Z (sum_values present) / inject_Z (Z.of_nat (length present)))%Q.

(** [games_next_n_days]: what the count from the player's own schedule
    raises goes to the caller. *)
Definition games_next_n_days (w : World) (player : Player) (days : Z) : M Z :=
  if schedule_has_parsable_dates w player then
    lift (games_next_n_days_from_player_schedule w player days)
  else
    match normalize_team_abbrev (proTeam player) with
    | None => ret 0
    | Some team_abbrev =>
        let* counts := get_team_games_cache w days DEFAULT_TTL in
        match counts !! team_abbrev with
        | Some v => ret v
        | None =>
            let present := (map_to_list counts).*2 in
            match present with
            | _ :: _ => ret (py_round (league_avg present))
            | [] => ret 0
            end
        end
    end.

(** [projected_points_next_n_days] *)
Definition projected_points_next_n_days (w : World) (player : Player) (days : Z) : M Q :=
  let ppg := get_points_per_game player in
  let* g := games_next_n_days w player days in
  if (g =? 0) && schedule_has_parsable_dates w player then ret 0%Q
  else if g <=? 0 then ret (ppg * 1)%Q
  else ret (ppg * inject_Z g)%Q.

(** ** Enriched player records *)

Record Debug : Type := {
  proTeam_normalized : option string;
  schedule_parsable : bool;
  team_in_cache : bool;
  cache_team_count : Z;
  debug_cache_last_error : option string
}.

Record Packed : Type := {
  out_playerId : option Z;
  out_name : option string;
  out_position : option string;
  out_proTeam : option string;
  out_injuryStatus : option string;
  out_avg_points : option Q;
  out_projected_avg_points : pyattr;
  fantasy_ppg_used : Q;
  days_window : Z;
  out_games_next_n_days : Z;
  out_projected_points_next_n_days : Q;
  debug : option Debug
}.

(** [pack_player] *)
Definition pack_player (w : World) (p : Player) (days : Z) (include_debug : bool)
  : M Packed :=
  let ppg_used := get_points_per_game p in
  let raw_team := proTeam p in
  let norm_team := normalize_team_abbrev raw_team in
  let* g := games_next_n_days w p days in
  let* pts := projected_points_next_n_days w p days in
  let out dbg :=
    {| out_playerId := get_player_id p;
       out_name := name p;
       out_position := position p;
       out_proTeam := raw_team;
       out_injuryStatus := injuryStatus p;
       out_avg_points := avg_points p;
       out_projected_avg_points := projected_avg_points p;
       fantasy_ppg_used := py_round2 ppg_used;
       days_window := days;
       out_games_next_n_days := g;
       out_projected_points_next_n_days := py_round2 pts;
       debug := dbg |} in
  if include_debug then
    let* cache_counts := get_team_games_cache w days DEFAULT_TTL in
    let* c := get_cache in
    ret (out (Some
      {| proTeam_normalized := norm_team;
         schedule_parsable := schedule_has_parsable_dates w p;
         team_in_cache :=
           match norm_team with
           | Some t => bool_decide (is_Some (cache_counts !! t))
           | None => false
           end;
         cache_team_count := Z.of_nat (size cache_counts);
         debug_cache_last_error := cache_last_error c |}))
  else ret (out None).

(** ** Sorting *)

(** [sorted(l, key=..., reverse=...)] is stable: elements with equal keys
    keep their order, also with [reverse=True].  [insert_keyed] puts an
    element in front of the first one it may precede. *)
Definition key_le (reverse : bool) (a b : Q) : bool :=
  if reverse then Qle_bool b a else Qle_bool a b.

Fixpoint insert_keyed {A} (reverse : bool) (x : A * Q) (l : list (A * Q)) : list (A * Q) :=
  match l with
  | [] => [x]
  | y :: r =>
      if key_le reverse x.2 y.2 then x :: y :: r
      else y :: insert_keyed reverse x r
  end.

Definition sort_keyed {A} (reverse : bool) (l : list (A * Q)) : list (A * Q) :=
  foldr (insert_keyed reverse) [] l.

(** The key function is called once per element, in list order. *)
Definition sorted {A} (l : list A) (key : A -> M Q) (reverse : bool) : M (list A) :=
  let* keys := mapM key l in
  ret (sort_keyed reverse (zip l keys)).*1.

(** ** Waiver recommendations *)

Record Recommendation : Type := {
  add : Packed;
  drop : Packed;
  expected_gain_next_n_days : Q
}.

(** The two shapes of the response of [waiver_recommendations]. *)
Inductive Response : Type :=
| EmptyRosterResponse (team : string) (days_window : Z)
| FullResponse (team : string) (days_window : Z) (drop_player_id : option Z)
    (drop_candidates_used : list Packed) (recommendations : list Recommendation).

Definition recommendations_of (r : Response) : list Recommendation :=
  match r with
  | EmptyRosterResponse _ _ => []
  | FullResponse _ _ _ _ recs => recs
  end.

Definition Qlt_bool (a b : Q) : bool := negb (Qle_bool b a).

(** The loop [for dp in drop_candidates] for one free agent: the
    recommendation appended before [break], if any. *)
Fixpoint scan_drop_candidates (w : World) (days : Z) (fa : Player) (fa_pts : Q)
    (dps : list Player) : M (option Recommendation) :=
  match dps with
  | [] => ret None
  | dp :: rest =>
      let* dp_pts := projected_points_next_n_days w dp days in
      let delta := (fa_pts - dp_pts)%Q in
      if Qlt_bool 0 delta then
        let* a := pack_player w fa days true in
        let* d := pack_player w dp days true in
        ret (Some {| add := a; drop := d;
                     expected_gain_next_n_days := py_round2 delta |})
      else scan_drop_candidates w days fa fa_pts rest
  end.

(** The loop [for fa in free_agents_sorted], with the recommendations and
    the used ids collected so far. *)
Fixpoint match_free_agents (w : World) (days limit : Z) (drop_candidates : list Player)
    (fas : list Player) (recommendations : list Recommendation)
    (used_add_ids : gset (option Z)) : M (list Recommendation) :=
  match fas with
  | [] => ret recommendations
  | fa :: rest =>
      let fa_id := get_player_id fa in
      if bool_decide (fa_id ∈ used_add_ids) then
        match_free_agents w days limit drop_candidates rest recommendations used_add_ids
      else
        let* fa_pts := projected_points_next_n_days w fa days in
        let* found := scan_drop_candidates w days fa fa_pts drop_candidates in
        let recommendations' :=
          match found with
          | Some r => (recommendations ++ [r])%list
          | None => recommendations
          end in
        let used_add_ids' :=
          match found with
          | Some _ => {[ fa_id ]} ∪ used_add_ids
          | None => used_add_ids
          end in
        if limit <=? Z.of_nat (length recommendations') then ret recommendations'
        else match_free_agents w days limit drop_candidates rest
               recommendations' used_add_ids'
  end.

(** [next((p for p in roster if get_player_id(p) == drop_player_id), None)] *)
Definition find_forced_drop (roster : list Player) (drop_player_id : Z) : option Player :=
  find (fun p => bool_decide (get_player_id p = Some drop_player_id)) roster.

(** [waiver_recommendations]; [league] is the outcome of [get_nba_league()]. *)
Definition waiver_recommendations (w : World) (league : result League)
    (team_id_ limit pool_size days : Z) (drop_player_id : option Z) : M Response :=
  match league with
  | Raise _ => raise (HTTPException 400 "ESPN auth failed.")
  | Ok league =>
      match find (fun t => team_id t =? team_id_) (teams league) with
      | None => raise (HTTPException 404 "Team not found")
      | Some team =>
          let roster := filter (fun p => is_unavailable p = false) (roster team) in
          match roster with
          | [] => ret (EmptyRosterResponse (team_name team) days)
          | _ :: _ =>
              let* forced_drop :=
                match drop_player_id with
                | None => ret None
                | Some i =>
                    match find_forced_drop roster i with
                    | None => raise (HTTPException 404 "drop_player_id not found on roster")
                    | Some p => ret (Some p)
                    end
                end in
              let* by_points :=
                sorted roster (fun p => projected_points_next_n_days w p days) false in
              let drop_candidates :=
                match forced_drop with
                | Some p => [p]
                | None => take 6 by_points
                end in
              let free_agents :=
                filter (fun p => is_unavailable p = false) (free_agents league pool_size) in
              let* free_agents_sorted :=
                sorted free_agents (fun p => projected_points_next_n_days w p days) true in
              let* recommendations :=
                match_free_agents w days limit drop_candidates free_agents_sorted [] ∅ in
              let* used := mapM (fun p => pack_player w p days false) drop_candidates in
              ret (FullResponse (team_name team) days drop_player_id used recommendations)
          end
      end
  end.

(** ** The other routes *)

Record TeamSummary : Type := {
  summary_team_id : Z;
  summary_team_name : string;
  summary_wins : option Z;
  summary_losses : option Z
}.

Record TeamsResponse : Type := {
  team_count : Z;
  teams_days_window : Z;
  teams_out : list TeamSummary
}.

(** [nba_teams]: any exception of [get_nba_league()] becomes a 400. *)
Definition nba_teams (league : result League) (days : Z) : M TeamsResponse :=
  match league with
  | Raise _ =>
      raise (HTTPException 400
               "ESPN auth failed. Check SWID/ESPN_S2 cookies and league access.")
  | Ok league =>
      let teams_out :=
        (fun t => {| summary_team_id := team_id t;
                     summary_team_name := team_name t;
                     summary_wins := wins t;
                     summary_losses := losses t |}) <$> teams league in
      ret {| team_count := Z.of_nat (length teams_out);
             teams_days_window := days;
             teams_out := teams_out |}
  end.

Record RosterResponse : Type := {
  roster_team : string;
  roster_days_window : Z;
  roster_out : list Packed
}.

(** [nba_roster]: [get_nba_league()] is called outside any [try], so what it
    raises goes to the caller as it is. *)
Definition nba_roster (w : World) (league : result League) (team_id_ days : Z)
  : M RosterResponse :=
  match league with
  | Raise e => raise e
  | Ok league =>
      match find (fun t => team_id t =? team_id_) (teams league) with
      | None => raise (HTTPException 404 "Team not found")
      | Some team =>
          let roster := filter (fun p => is_unavailable p = false) (roster team) in
          let* roster_sorted :=
            sorted roster (fun p => projected_points_next_n_days w p days) false in
          let* out := mapM (fun p => pack_player w p days false) roster_sorted in
          ret {| roster_team := team_name team;
                 roster_days_window := days;
                 roster_out := out |}
      end
  end.

(** ** The league client (espn_client.py) *)

(** The process environment and what lies behind the client:
    - [getenv name]: the variable's text, [None] when it is unset;
    - [int_of_text s]: what [int(s)] makes of a text, a number or the
      [ValueError] it raises;
    - [BasketballLeague league_id year swid espn_s2]: the league the
      constructor builds, or what it raises. *)
Record Env : Type := {
  getenv : string -> option string;
  int_of_text : string -> result Z;
  BasketballLeague : Z -> Z -> string -> string -> result League
}.

(** [int(os.getenv(name))]: [int(None)] is a [TypeError]. *)
Definition int_getenv (e : Env) (name : string) : result Z :=
  match getenv e name with
  | None =>
      Raise (PyError "TypeError"
               "int() argument must be a string, a bytes-like object or a real number, not 'NoneType'")
  | Some s => int_of_text e s
  end.

(** The truth value of an optional text: unset and empty are falsy. *)
Definition text_truthy (v : option string) : bool :=
  match v with
  | Some (String _ _) => true
  | _ => false
  end.

(** [get_nba_league] *)
Definition get_nba_league (e : Env) : result League :=
  let? league_id := int_getenv e "ESPN_LEAGUE_ID" in
  let? year := int_getenv e "ESPN_YEAR" in
  let swid := getenv e "ESPN_SWID" in
  let s2 := getenv e "ESPN_S2" in
  if negb (league_id =? 0) && negb (year =? 0) && text_truthy swid && text_truthy s2
  then BasketballLeague e league_id year (default "" swid) (default "" s2)
  else Raise (PyError "ValueError" "Missing ESPN env vars. Check backend/.env").

(** ** A concrete ISO-8601 reader

    [datetime.fromisoformat] on the profile [YYYY-MM-DDTHH:MM:SS] with an
    optional [+HH:MM] or [-HH:MM] suffix; every other text is rejected.
    The worlds of the examples read dates with it. *)

Module Iso.

Definition digit (c : ascii) : option Z :=
  let n := nat_of_ascii c in
  if ((48 <=? n)%nat && (n <=? 57)%nat)%bool then Some (Z.of_nat n - 48) else None.

Fixpoint number_from (s : string) (acc : Z) : option Z :=
  match s with
  | EmptyString => Some acc
  | String c r =>
      match digit c with
      | Some d => number_from r (acc * 10 + d)
      | None => None
      end
  end.

(** The number written in the [len] characters from position [i]. *)
Definition number_at (s : string) (i len : nat) : option Z :=
  let t := String.substring i len s in
  if (String.length t =? len)%nat then number_from t 0 else None.

Definition char_at (s : string) (i : nat) : option ascii := String.get i s.

Definition is_leap (y : Z) : bool :=
  ((y `mod` 4 =? 0) && negb (y `mod` 100 =? 0)) || (y `mod` 400 =? 0).

Definition days_in_month (y m : Z) : Z :=
  if m =? 2 then (if is_leap y then 29 else 28)
  else if (m =? 4) || (m =? 6) || (m =? 9) || (m =? 11) then 30
  else 31.

(** Day number since 1970-01-01 of a proleptic Gregorian date. *)
Definition days_from_civil (y m d : Z) : Z :=
  let y' := if m <=? 2 then y - 1 else y in
  let era := y' `div` 400 in
  let yoe := y' - era * 400 in
  let mp := (m + 9) `mod` 12 in
  let doy := (153 * mp + 2) `div` 5 + d - 1 in
  let doe := yoe * 365 + yoe `div` 4 - yoe `div` 100 + doy in
  era * 146097 + doe - 719468.

Definition is_char (o : option ascii) (c : ascii) : bool :=
  match o with
  | Some c' => Ascii.eqb c' c
  | None => false
  end.

Definition wall_clock (s : string) : option Z :=
  match number_at s 0 4, number_at s 5 2, number_at s 8 2,
        number_at s 11 2, number_at s 14 2, number_at s 17 2 with
  | Some y, Some mo, Some d, Some h, Some mi, Some se =>
      if is_char (char_at s 4) "-" && is_char (char_at s 7) "-"
         && (is_char (char_at s 10) "T" || is_char (char_at s 10) " ")
         && is_char (char_at s 13) ":" && is_char (char_at s 16) ":"
         && (1 <=? y) && (1 <=? mo) && (mo <=? 12)
         && (1 <=? d) && (d <=? days_in_month y mo)
         && (h <=? 23) && (mi <=? 59) && (se <=? 59)
      then Some ((days_from_civil y mo d * 86400 + h * 3600 + mi * 60 + se)
                 * US_PER_SECOND)
      else None
  | _, _, _, _, _, _ => None
  end.

Definition utc_offset (s : string) : option Z :=
  match number_at s 20 2, number_at s 23 2 with
  | Some h, Some mi =>
      if is_char (char_at s 22) ":" && (h <=? 23) && (mi <=? 59) then
        let off := (h * 3600 + mi * 60) * US_PER_SECOND in
        if is_char (char_at s 19) "+" then Some off
        else if is_char (char_at s 19) "-" then Some (- off)
        else None
      else None
  | _, _ => None
  end.

Definition fromisoformat (s : string) : option (Z * option Z) :=
  match wall_clock s with
  | None => None
  | Some t =>
      if (String.length s =? 19)%nat then Some (t, None)
      else if (String.length s =? 25)%nat then
        match utc_offset s with
        | Some off => Some (t, Some off)
        | None => None
        end
      else None
  end.

End Iso.

(** * Vocabulary of the properties *)

(** ** Invariants of the cache *)

(** Every key is a canonical code and every value counts at least one game. *)
Definition counts_wf (m : gmap string Z) : Prop :=
  forall k v, m !! k = Some v -> is_nba_team k = true /\ 1 <= v.

(** The cache states the program can be in: the one the module starts with
    and those a call of [get_team_games_cache] leaves. *)
Inductive reachable : TeamScheduleCache -> Prop :=
| reachable_initial : reachable initial_cache
| reachable_call w days ttl s r s' :
    reachable (cache s) ->
    get_team_games_cache w days ttl s = (r, s') ->
    reachable (cache s').

(** ** The outcome of a refresh *)

Definition empty_state : State := {| cache := initial_cache; log := [] |}.

(** [m] leaves the cache alone, and its result and the events it logs do not
    depend on the state it starts from. *)
Definition oblivious {A} (m : M A) : Prop :=
  forall s, m s = ((m empty_state).1,
                   {| cache := cache s; log := (log s ++ log (m empty_state).2)%list |}).

(** The outcome of a refresh in world [w]: what the aggregation returns or
    raises, and the events it logs. *)
Definition refresh_outcome (w : World) (days : Z) : result (gmap string Z) :=
  (_compute_team_games_next_n_days w days empty_state).1.

Definition refresh_events (w : World) (days : Z) : list event :=
  log (_compute_team_games_next_n_days w days empty_state).2.

(** The cache record a refresh stores, by outcome. *)
Definition refreshed_cache (w : World) (days : Z) (r : result (gmap string Z))
  : TeamScheduleCache :=
  match r with
  | Ok counts =>
      {| cache_ts := clock w; cache_days := Some days; cache_counts := counts;
         cache_last_error := None; cache_last_status := Some 200 |}
  | Raise (HTTPError code msg) =>
      failed_cache (clock w) days ("HTTPError: " ++ msg)%string (Some code)
  | Raise (URLError msg) =>
      failed_cache (clock w) days ("URLError: " ++ msg)%string None
  | Raise e =>
      failed_cache (clock w) days ("Exception: " ++ exn_str e)%string None
  end.

(** The cache record a call of [get_team_games_cache] leaves. *)
Definition cache_after (w : World) (days ttl : Z) (c : TeamScheduleCache)
  : TeamScheduleCache :=
  if cache_ok c (clock w) days ttl then c
  else refreshed_cache w days (refresh_outcome w days).

(** ** One request sees one snapshot of the cache

    Within a request the world and the window are fixed, so every call of
    [get_team_games_cache] leaves the same cache record [K] and returns its
    mapping.  The functions below are what the resolver, the projection, the
    packing and the matching loop compute from [K]. *)

Definition estimate_in (counts : gmap string Z) : Z :=
  match (map_to_list counts).*2 with
  | _ :: _ => py_round (league_avg (map_to_list counts).*2)
  | [] => 0
  end.

(** The end of the window, [now + timedelta(days=days)], is a [datetime]. *)
Definition window_ok (w : World) (days : Z) : bool :=
  (Z.abs days <=? TIMEDELTA_MAX_DAYS) && datetime_in_range (clock w + days * US_PER_DAY).

(** The entry's date parses to an instant of the window, ends included. *)
Definition in_window (w : World) (days : Z) (g : Game) : bool :=
  match _parse_game_datetime w g with
  | Some dt => (clock w <=? dt) && (dt <=? clock w + days * US_PER_DAY)
  | None => false
  end.

(** The entries of the player's own schedule that fall in the window. *)
Definition count_in_window (w : World) (days : Z) (player : Player) : Z :=
  match schedule player with
  | SchedList sched => Z.of_nat (length (List.filter (in_window w days) sched))
  | SchedNone | SchedNotList => 0
  end.

Definition games_in (K : TeamScheduleCache) (w : World) (player : Player) (days : Z) : Z :=
  if schedule_has_parsable_dates w player then count_in_window w days player
  else
    match normalize_team_abbrev (proTeam player) with
    | None => 0
    | Some team_abbrev =>
        match cache_counts K !! team_abbrev with
        | Some v => v
        | None => estimate_in (cache_counts K)
        end
    end.

Definition points_in (K : TeamScheduleCache) (w : World) (player : Player) (days : Z) : Q :=
  let ppg := get_points_per_game player in
  let g := games_in K w player days in
  if (g =? 0) && schedule_has_parsable_dates w player then 0%Q
  else if g <=? 0 then (ppg * 1)%Q
  else (ppg * inject_Z g)%Q.

Definition debug_in (K : TeamScheduleCache) (w : World) (p : Player) : Debug :=
  {| proTeam_normalized := normalize_team_abbrev (proTeam p);
     schedule_parsable := schedule_has_parsable_dates w p;
     team_in_cache :=
       match normalize_team_abbrev (proTeam p) with
       | Some t => bool_decide (is_Some (cache_counts K !! t))
       | None => false
       end;
     cache_team_count := Z.of_nat (size (cache_counts K));
     debug_cache_last_error := cache_last_error K |}.

Definition packed_in (K : TeamScheduleCache) (w : World) (p : Player) (days : Z)
    (include_debug : bool) : Packed :=
  {| out_playerId := get_player_id p;
     out_name := name p;
     out_position := position p;
     out_proTeam := proTeam p;
     out_injuryStatus := injuryStatus p;
     out_avg_points := avg_points p;
     out_projected_avg_points := projected_avg_points p;
     fantasy_ppg_used := py_round2 (get_points_per_game p);
     days_window := days;
     out_games_next_n_days := games_in K w p days;
     out_projected_points_next_n_days := py_round2 (points_in K w p days);
     debug := if include_debug then Some (debug_in K w p) else None |}.

(** [sorted] with the keys of the snapshot. *)
Definition sorted_in (pts : Player -> Q) (reverse : bool) (l : list Player) : list Player :=
  (sort_keyed reverse (zip l (pts <$> l))).*1.

(** The first drop candidate a free agent with [fa_pts] points beats. *)
Fixpoint first_beaten (pts : Player -> Q) (fa_pts : Q) (dps : list Player) : option Player :=
  match dps with
  | [] => None
  | dp :: rest =>
      if Qlt_bool 0 (fa_pts - pts dp) then Some dp else first_beaten pts fa_pts rest
  end.

Definition recommendation_in (K : TeamScheduleCache) (w : World) (days : Z)
    (fa dp : Player) : Recommendation :=
  {| add := packed_in K w fa days true;
     drop := packed_in K w dp days true;
     expected_gain_next_n_days :=
       py_round2 (points_in K w fa days - points_in K w dp days) |}.

Definition scan_in (K : TeamScheduleCache) (w : World) (days : Z) (fa : Player)
    (dps : list Player) : option Recommendation :=
  recommendation_in K w days fa
    <$> first_beaten (fun p => points_in K w p days) (points_in K w fa days) dps.

Fixpoint match_in (K : TeamScheduleCache) (w : World) (days limit : Z)
    (drop_candidates fas : list Player) (recommendations : list Recommendation)
    (used_add_ids : gset (option Z)) : list Recommendation :=
  match fas with
  | [] => recommendations
  | fa :: rest =>
      if bool_decide (get_player_id fa ∈ used_add_ids) then
        match_in K w days limit drop_candidates rest recommendations used_add_ids
      else
        match scan_in K w days fa drop_candidates with
        | Some r =>
            if limit <=? Z.of_nat (length (recommendations ++ [r])) then
              (recommendations ++ [r])%list
            else match_in K w days limit drop_candidates rest
                   (recommendations ++ [r])%list ({[ get_player_id fa ]} ∪ used_add_ids)
        | None =>
            if limit <=? Z.of_nat (length recommendations) then recommendations
            else match_in K w days limit drop_candidates rest recommendations used_add_ids
        end
  end.

(** The states of the snapshot [K]: a call of the cache leaves [K]. *)
Definition in_snapshot (w : World) (days : Z) (K : TeamScheduleCache) (s : State) : Prop :=
  cache_after w days DEFAULT_TTL (cache s) = K.

(** From a state of the snapshot, [m] returns [v] and stays in the snapshot. *)
Definition yields (w : World) (days : Z) (K : TeamScheduleCache) {A} (m : M A) (v : A)
  : Prop :=
  forall s, in_snapshot w days K s ->
            exists s', m s = (Ok v, s') /\ in_snapshot w days K s'.

(** ** Example worlds *)

Module Examples.

(** 2026-11-03T19:30:00Z, on day 20760 since the epoch. *)
Definition t0 : Z := 1793734200000000.

Definition game_event (home away : string) : json :=
  JDict [("id", JStr "401810001");
         ("competitions",
          JList [JDict [("competitors",
                         JList [JDict [("homeAway", JStr "home");
                                       ("team", JDict [("abbreviation", JStr home)])];
                                JDict [("homeAway", JStr "away");
                                       ("team", JDict [("abbreviation", JStr away)])]])]])].

Definition scoreboard_doc (games : list (string * string)) : json :=
  JDict [("leagues", JList []);
         ("events", JList ((fun g => game_event g.1 g.2) <$> games))].

(** A week in the season: the Lakers host the Warriors (sent as "GS") every
    day, and on even days Boston plays a team the vocabulary does not know. *)
Definition season (now : Z) : World :=
  {| clock := now;
     scoreboard := fun d =>
       Ok (scoreboard_doc
             (if Z.even d then [("LAL", "GS"); ("BOS", "SEA")] else [("LAL", "GS")]));
     fromisoformat := Iso.fromisoformat |}.

(** No game on any day. *)
Definition off_season (now : Z) : World :=
  {| clock := now;
     scoreboard := fun _ => Ok (scoreboard_doc []);
     fromisoformat := Iso.fromisoformat |}.

(** The season, but the query for day [bad] is answered 503. *)
Definition outage (now bad : Z) : World :=
  {| clock := now;
     scoreboard := fun d =>
       if d =? bad then Raise (HTTPError 503 "HTTP Error 503: Service Unavailable")
       else scoreboard (season now) d;
     fromisoformat := Iso.fromisoformat |}.

(** The scoreboard host cannot be reached. *)
Definition offline (now : Z) : World :=
  {| clock := now;
     scoreboard := fun _ => Raise (URLError "<urlopen error timed out>");
     fromisoformat := Iso.fromisoformat |}.

Definition game_at (d : string) : Game :=
  {| g_date := Some d; g_startDate := None; g_startTime := None;
     g_gameDate := None; g_gameTime := None |}.

Definition player (i : Z) (team : string) (avg : Q) (sched : Schedule) : Player :=
  {| playerId := Some i; player_id := None; id_ := None; espn_id := None;
     name := None; position := None; proTeam := Some team;
     injuryStatus := Some "ACTIVE"; avg_points := Some avg;
     projected_avg_points := AttrNone; schedule := sched |}.

End Examples.

(** ** Predicates of the statements *)

(** The player's own schedule is a list with an entry whose date parses. *)
Definition has_parsable_date (w : World) (p : Player) : Prop :=
  exists sched g, schedule p = SchedList sched /\ In g sched
                  /\ is_Some (_parse_game_datetime w g).


(** The drop candidates, given the forced player if there is one. *)
Definition drop_candidates_in (pts : Player -> Q) (avail : list Player)
    (forced_drop : option Player) : list Player :=
  match forced_drop with
  | Some p => [p]
  | None => take 6 (sorted_in pts false avail)
  end.

(** The forced player the handler settles on, when it does not fail. *)
Definition forced_drop_in (avail : list Player) (drop_player_id : option Z)
    (forced_drop : option Player) : Prop :=
  match drop_player_id with
  | None => forced_drop = None
  | Some i => find_forced_drop avail i = forced_drop /\ is_Some forced_drop
  end.


Module WaiverExample.

(** The example of the specification: rostered players with 5 and 2 points,
    free agents with 3 and 10, in a window where nobody plays, so that each
    projection is the player's rate. *)
Definition P1 : Player := Examples.player 1 "LAL" 2 SchedNone.
Definition P2 : Player := Examples.player 2 "BOS" 5 SchedNone.
Definition F1 : Player := Examples.player 101 "MIA" 10 SchedNone.
Definition F2 : Player := Examples.player 102 "NYK" 3 SchedNone.

Definition league : League :=
  {| teams := [ {| team_id := 1; team_name := "Team One"; wins := Some 3;
                   losses := Some 1; roster := [P2; P1] |} ];
     free_agents := fun _ => [F2; F1] |}.

Definition world : World := Examples.off_season Examples.t0.

(** Who is added, who is dropped and the gain, per recommendation. *)
Definition summary (r : Response) : list (option Z * option Z * Q) :=
  (fun rec => (out_playerId (add rec), out_playerId (drop rec),
               expected_gain_next_n_days rec)) <$> recommendations_of r.

End WaiverExample.

Module Witness.

Import Examples.

Definition after_season_refresh : State :=
  (get_team_games_cache (season t0) 7 900 empty_state).2.

Definition after_failed_refresh : State :=
  (_compute_team_games_next_n_days (offline t0) 7 empty_state).2.

(** A cache that holds 5 games for Atlanta and 7 for Boston. *)
Definition two_teams : State :=
  {| cache := {| cache_ts := t0; cache_days := Some 7;
                 cache_counts := {[ "ATL" := 5; "BOS" := 7 ]};
                 cache_last_error := None; cache_last_status := Some 200 |};
     log := [] |}.

Definition bye_week : Player :=
  player 30 "GSW" 10 (SchedList [game_at "2026-12-25T20:00:00Z"]).

Definition three_games : Player :=
  player 31 "GSW" 10
    (SchedList [game_at "2026-11-03T19:30:00Z"; game_at "to be announced";
                game_at "2026-11-06T22:00:00-05:00"; game_at "2026-11-10T19:30:00";
                game_at "2026-11-10T19:30:01+00:00"]).

Definition no_schedule (team : string) : Player := player 32 team 10 SchedNone.


End Witness.

(** ** Predicates on texts, events and scoreboards *)

(** Every character is white space. *)
Fixpoint all_spaces (s : string) : bool :=
  match s with
  | EmptyString => true
  | String c r => Str.is_space c && all_spaces r
  end.

(** No character is white space. *)
Fixpoint no_space (s : string) : bool :=
  match s with
  | EmptyString => true
  | String c r => negb (Str.is_space c) && no_space r
  end.

(** The text does not start with white space. *)
Definition starts_clean (s : string) : bool :=
  match s with
  | EmptyString => true
  | String c _ => negb (Str.is_space c)
  end.

Definition is_fetch (ev : event) : Prop :=
  match ev with
  | EvFetch _ => True
  | EvRefresh _ => False
  end.

(** The exception that day [d] ends a refresh with, if it does: the one the
    query raises, or the one raised while the day's document is aggregated. *)
Definition day_failure (w : World) (d : Z) : option exn :=
  match scoreboard w d with
  | Raise e => Some e
  | Ok data =>
      match count_scoreboard ∅ data with
      | Raise e => Some e
      | Ok _ => None
      end
  end.

(** The last day of the window is a calendar day: 9999-12-31, day 2932896
    since the epoch, at the latest. *)
Definition DATE_MAX : Z := 2932896.

Definition days_in_calendar (w : World) (days : Z) : bool :=
  (days <? 0) || (clock w `div` US_PER_DAY + days <=? DATE_MAX).



(** The three-way policy of the projection, for a rate and a game count. *)
Definition projection_of (rate : Q) (g : Z) (parsable : bool) : Q :=
  if (g =? 0) && parsable then 0%Q
  else if g <=? 0 then (rate * 1)%Q
  else (rate * inject_Z g)%Q.



Module ClientExample.

(** [int] on a text of decimal digits; any other text is refused. *)
Definition int_of_digits (s : string) : result Z :=
  match s, Iso.number_from s 0 with
  | String _ _, Some n => Ok n
  | _, _ => Raise (PyError "ValueError" "invalid literal for int() with base 10")
  end.

Definition env (vars : list (string * string)) : Env :=
  {| getenv := fun name => snd <$> find (fun kv => String.eqb kv.1 name) vars;
     int_of_text := int_of_digits;
     BasketballLeague := fun _ _ _ _ => Ok WaiverExample.league |}.

Definition complete : Env :=
  env [("ESPN_LEAGUE_ID", "123456"); ("ESPN_YEAR", "2026");
       ("ESPN_SWID", "{swid}"); ("ESPN_S2", "token")].

Definition no_year : Env :=
  env [("ESPN_LEAGUE_ID", "123456"); ("ESPN_SWID", "{swid}"); ("ESPN_S2", "token")].

Definition empty_s2 : Env :=
  env [("ESPN_LEAGUE_ID", "123456"); ("ESPN_YEAR", "2026");
       ("ESPN_SWID", "{swid}"); ("ESPN_S2", "")].

End ClientExample.

(** * Properties *)

Ltac munfold :=
  unfold bind, ret, raise, try_except, get_cache, set_cache, emit, lift in *.

(** ** The normalizer and the vocabulary *)

Lemma is_nba_team_In k : is_nba_team k = true <-> In k NBA_TEAM_ABBREVS.
Proof.
  unfold is_nba_team. rewrite existsb_exists. split.
  - intros (x & Hin & Heq). apply String.eqb_eq in Heq. now subst.
  - intros Hin. exists k. split; [assumption | apply String.eqb_refl].
Qed.

Lemma vocabulary_size : length NBA_TEAM_ABBREVS = 30%nat.
Proof. reflexivity. Qed.

Lemma vocabulary_NoDup : NoDup NBA_TEAM_ABBREVS.
Proof. apply (bool_decide_unpack (NoDup NBA_TEAM_ABBREVS)). vm_compute. exact I. Qed.

Lemma normalize_team_abbrev_canonical a k :
  normalize_team_abbrev a = Some k -> is_nba_team k = true.
Proof.
  unfold normalize_team_abbrev. destruct a as [[|c r]|]; try discriminate.
  destruct (is_nba_team _) eqn:E; [|discriminate].
  intros [= <-]. exact E.
Qed.

Lemma normalize_json_canonical v k :
  normalize_json v = Some k -> is_nba_team k = true.
Proof.
  destruct v; try discriminate. unfold normalize_json.
  apply normalize_team_abbrev_canonical.
Qed.

(** ** What the aggregation keeps true of the counter *)

Lemma counts_wf_empty : counts_wf ∅.
Proof. intros k v H. rewrite lookup_empty in H. discriminate. Qed.

Lemma counter_incr_wf m k :
  counts_wf m -> is_nba_team k = true -> counts_wf (counter_incr m k).
Proof.
  intros Hm Hk k' v. unfold counter_incr. rewrite lookup_insert.
  case_decide as E.
  - subst k'. intros [= <-]. split; [assumption|].
    destruct (m !! k) as [v0|] eqn:Ek; simpl; [|lia].
    destruct (Hm _ _ Ek). lia.
  - apply Hm.
Qed.

Lemma fold_result_inv {A B} (P : B -> Prop) (f : B -> A -> result B) l :
  (forall b x b', P b -> f b x = Ok b' -> P b') ->
  forall b r, P b -> fold_result f l b = Ok r -> P r.
Proof.
  intros Hf. induction l as [|x l IH]; simpl; intros b r Hb H.
  - now injection H as <-.
  - unfold rbind in H. destruct (f b x) as [b'|e] eqn:E; [|discriminate].
    eapply IH; [|exact H]. eapply Hf; eauto.
Qed.

(** A competitor entry leaves the counter alone or counts one game for a
    canonical code: a code that does not normalize is dropped. *)
Lemma count_competitor_cases counts c counts' :
  count_competitor counts c = Ok counts' ->
  counts' = counts \/
  exists k, is_nba_team k = true /\ counts' = counter_incr counts k.
Proof.
  unfold count_competitor, rbind.
  destruct (py_get c "team" (JDict [])) as [team|]; [|discriminate].
  destruct (py_get (py_or team (JDict [])) "abbreviation" JNull) as [a|];
    [|discriminate].
  destruct (normalize_json a) as [k|] eqn:E; intros [= <-].
  - right. exists k. split; [|reflexivity]. eapply normalize_json_canonical, E.
  - now left.
Qed.

Lemma count_competitor_wf counts c counts' :
  counts_wf counts -> count_competitor counts c = Ok counts' -> counts_wf counts'.
Proof.
  intros Hwf H. apply count_competitor_cases in H as [->|(k & Hk & ->)].
  - assumption.
  - now apply counter_incr_wf.
Qed.

Lemma count_event_wf counts ev counts' :
  counts_wf counts -> count_event counts ev = Ok counts' -> counts_wf counts'.
Proof.
  intros Hwf. unfold count_event, rbind.
  destruct (py_get ev "competitions" (JList [])) as [comps|]; [|discriminate].
  destruct (negb (truthy _)); [now intros [= <-]|].
  destruct (py_index0 _) as [comp0|]; [|discriminate].
  destruct (py_get comp0 "competitors" (JList [])) as [cs0|]; [|discriminate].
  destruct (py_iter _) as [cs|]; [|discriminate].
  apply fold_result_inv with (P := counts_wf); [|assumption].
  intros b x b' Hb. now apply count_competitor_wf.
Qed.

Lemma count_scoreboard_wf counts data counts' :
  counts_wf counts -> count_scoreboard counts data = Ok counts' -> counts_wf counts'.
Proof.
  intros Hwf. unfold count_scoreboard, rbind.
  destruct (py_get data "events" (JList [])) as [events|]; [|discriminate].
  destruct (py_iter _) as [evs|]; [|discriminate].
  apply fold_result_inv with (P := counts_wf); [|assumption].
  intros b x b' Hb. now apply count_event_wf.
Qed.

(** ** The refresh and the states it reaches *)

Lemma compute_loop_wf w ds : forall counts s r s',
  counts_wf counts ->
  compute_loop w ds counts s = (Ok r, s') -> counts_wf r.
Proof.
  induction ds as [|d ds IH]; simpl; intros counts s r s' Hwf H.
  - munfold. now injection H as <- _.
  - unfold _fetch_espn_nba_scoreboard_for_date in H. munfold.
    destruct (scoreboard w d) as [data|e]; [|discriminate].
    destruct (count_scoreboard counts data) as [counts'|e] eqn:E; [|discriminate].
    eapply IH; [|exact H]. eapply count_scoreboard_wf; eauto.
Qed.

Lemma filter_nba_wf (m : gmap string Z) :
  counts_wf m ->
  counts_wf (filter (fun kv : string * Z => Is_true (is_nba_team kv.1)) m).
Proof.
  intros Hm k v H. apply map_lookup_filter_Some in H as [H _]. now apply Hm.
Qed.

Lemma compute_wf w days s r s' :
  _compute_team_games_next_n_days w days s = (Ok r, s') -> counts_wf r.
Proof.
  unfold _compute_team_games_next_n_days. munfold.
  destruct (compute_loop w _ ∅ _) as [[c|e] s1] eqn:E; [|discriminate].
  intros [= <- _]. apply filter_nba_wf.
  eapply compute_loop_wf; [apply counts_wf_empty | exact E].
Qed.

(** [get_team_games_cache] always returns, what it returns is the mapping it
    leaves in the cache, and that mapping is well formed when the one it
    found was. *)
Lemma get_team_games_cache_returns w days ttl s :
  exists c s', get_team_games_cache w days ttl s = (Ok c, s')
               /\ c = cache_counts (cache s')
               /\ (counts_wf (cache_counts (cache s)) -> counts_wf c).
Proof.
  unfold get_team_games_cache. munfold.
  destruct (cache_ok _ _ _ _).
  - eexists _, _. split; [reflexivity|]. split; [reflexivity|]. auto.
  - destruct (_compute_team_games_next_n_days w days s) as [[c|e] s1] eqn:E.
    + eexists _, _. split; [reflexivity|]. split; [reflexivity|].
      intros _. eapply compute_wf, E.
    + destruct e; eexists _, _; (split; [reflexivity|]); (split; [reflexivity|]);
        intros _; apply counts_wf_empty.
Qed.

Lemma reachable_wf c : reachable c -> counts_wf (cache_counts c).
Proof.
  induction 1 as [|w days ttl s r s' _ IH H].
  - apply counts_wf_empty.
  - destruct (get_team_games_cache_returns w days ttl s) as (c & s1 & E & Hc & Hwf).
    rewrite E in H. injection H as _ <-. rewrite <- Hc. now apply Hwf.
Qed.

(** ** A refresh does not read the cache *)

Lemma oblivious_ret {A} (a : A) : oblivious (ret a).
Proof. intros [c l]. unfold ret. simpl. now rewrite app_nil_r. Qed.

Lemma oblivious_lift {A} (r : result A) : oblivious (lift r).
Proof. intros [c l]. unfold lift. simpl. now rewrite app_nil_r. Qed.

Lemma oblivious_emit ev : oblivious (emit ev).
Proof. intros [c l]. reflexivity. Qed.

Lemma oblivious_bind {A B} (m : M A) (k : A -> M B) :
  oblivious m -> (forall a, oblivious (k a)) -> oblivious (bind m k).
Proof.
  intros Hm Hk s. unfold bind.
  rewrite (Hm s).
  destruct (m empty_state) as [[a|e] [c0 l0]]; simpl.
  - rewrite (Hk a). rewrite (Hk a {| cache := c0; log := l0 |}). simpl.
    now rewrite app_assoc.
  - reflexivity.
Qed.

Lemma oblivious_compute_loop w ds : forall counts, oblivious (compute_loop w ds counts).
Proof.
  induction ds as [|d ds IH]; intros counts; simpl.
  - apply oblivious_ret.
  - apply oblivious_bind.
    + unfold _fetch_espn_nba_scoreboard_for_date.
      apply oblivious_bind; [apply oblivious_emit|]. intros _. apply oblivious_lift.
    + intros data. apply oblivious_bind; [apply oblivious_lift|]. intros c. apply IH.
Qed.

Lemma oblivious_compute w days : oblivious (_compute_team_games_next_n_days w days).
Proof.
  unfold _compute_team_games_next_n_days.
  apply oblivious_bind; [apply oblivious_emit|]. intros _.
  apply oblivious_bind; [apply oblivious_compute_loop|]. intros c. apply oblivious_ret.
Qed.

Lemma compute_run w days s :
  _compute_team_games_next_n_days w days s =
  (refresh_outcome w days,
   {| cache := cache s; log := (log s ++ refresh_events w days)%list |}).
Proof. apply oblivious_compute. Qed.

Lemma get_team_games_cache_run w days ttl s :
  get_team_games_cache w days ttl s =
  (Ok (cache_counts (cache_after w days ttl (cache s))),
   {| cache := cache_after w days ttl (cache s);
      log := if cache_ok (cache s) (clock w) days ttl then log s
             else (log s ++ refresh_events w days)%list |}).
Proof.
  unfold get_team_games_cache, cache_after. munfold.
  destruct (cache_ok _ _ _ _).
  - now destruct s.
  - rewrite compute_run.
    destruct (refresh_outcome w days) as [c|[]]; reflexivity.
Qed.

(** A refresh logs itself first, and after that only scoreboard queries. *)
Lemma refresh_events_head w days :
  exists l, refresh_events w days = EvRefresh days :: l.
Proof.
  unfold refresh_events, _compute_team_games_next_n_days. munfold. simpl.
  pose proof (oblivious_compute_loop w (window_days w days) ∅
                {| cache := initial_cache; log := [EvRefresh days] |}) as E.
  simpl in E. rewrite E.
  destruct (compute_loop w _ ∅ empty_state) as [[c|e] s1]; simpl; eauto.
Qed.

(** A call with the default time-to-live, repeated in the same world for the
    same window, leaves the cache as the first call left it. *)
Lemma cache_after_idempotent w days c :
  cache_after w days DEFAULT_TTL (cache_after w days DEFAULT_TTL c)
  = cache_after w days DEFAULT_TTL c.
Proof.
  unfold cache_after at 2 3.
  destruct (cache_ok c _ _ _) eqn:E.
  - unfold cache_after. now rewrite E.
  - unfold cache_after.
    destruct (cache_ok (refreshed_cache _ _ _) _ _ _); reflexivity.
Qed.

(** ** The window, and the count from a player's own schedule *)

Lemma window_ok_spec w days :
  window_ok w days = true <->
  Z.abs days <= TIMEDELTA_MAX_DAYS
  /\ DATETIME_MIN <= clock w + days * US_PER_DAY <= DATETIME_MAX.
Proof.
  unfold window_ok, datetime_in_range.
  rewrite !andb_true_iff, !Z.leb_le. tauto.
Qed.

(** The bounds are the first and the last day of the calendar. *)
Lemma calendar_bounds_checked :
  Iso.days_from_civil 1 1 1 * US_PER_DAY = DATETIME_MIN
  /\ (Iso.days_from_civil 9999 12 31 + 1) * US_PER_DAY - 1 = DATETIME_MAX
  /\ Iso.days_from_civil 9999 12 31 = DATE_MAX.
Proof. repeat split; reflexivity. Qed.

Lemma in_window_spec w days g :
  in_window w days g = true <->
  exists t, _parse_game_datetime w g = Some t
            /\ clock w <= t <= clock w + days * US_PER_DAY.
Proof.
  unfold in_window. destruct (_parse_game_datetime w g) as [t|].
  - rewrite andb_true_iff, !Z.leb_le. split.
    + intros H. exists t. now split.
    + intros (t' & [= <-] & H). exact H.
  - split; [discriminate|]. intros (t & H & _). discriminate.
Qed.

Lemma schedule_count_fold w days sched : forall acc,
  fold_left
    (fun count g =>
       match _parse_game_datetime w g with
       | None => count
       | Some dt =>
           if (clock w <=? dt) && (dt <=? clock w + days * US_PER_DAY)
           then count + 1 else count
       end) sched acc
  = acc + Z.of_nat (length (List.filter (in_window w days) sched)).
Proof.
  induction sched as [|g sched IH]; intros acc; simpl; [lia|].
  rewrite IH. unfold in_window at 2.
  destruct (_parse_game_datetime w g) as [t|]; [|reflexivity].
  destruct (_ && _); simpl length; lia.
Qed.

(** With a window that ends at a [datetime], the count is the number of
    entries in the window. *)
Lemma games_from_schedule_run w p days :
  window_ok w days = true ->
  games_next_n_days_from_player_schedule w p days = Ok (count_in_window w days p).
Proof.
  intros H. unfold games_next_n_days_from_player_schedule, count_in_window.
  destruct (schedule p) as [|[|g0 rest]|]; try reflexivity.
  apply andb_true_iff in H as [H1 H2].
  cbv zeta. unfold timedelta_days, datetime_add, rbind. rewrite H1, H2.
  rewrite schedule_count_fold. f_equal.
Qed.

(** With any other window, a schedule that has an entry makes it raise. *)
Lemma games_from_schedule_overflow w p days g0 rest :
  schedule p = SchedList (g0 :: rest) ->
  window_ok w days = false ->
  exists msg,
    games_next_n_days_from_player_schedule w p days
    = Raise (PyError "OverflowError" msg).
Proof.
  intros E H. unfold games_next_n_days_from_player_schedule. rewrite E. cbv zeta.
  unfold window_ok in H. unfold timedelta_days, datetime_add, rbind.
  destruct (Z.abs days <=? TIMEDELTA_MAX_DAYS).
  - rewrite andb_true_l in H. rewrite H. eauto.
  - clear H. destruct ((- 2 ^ 31 <=? days) && (days <? 2 ^ 31)); eauto.
Qed.

Lemma count_in_window_nonneg w days p : 0 <= count_in_window w days p.
Proof. unfold count_in_window. destruct (schedule p); lia. Qed.

Lemma schedule_has_parsable_dates_spec w p :
  schedule_has_parsable_dates w p = true <-> has_parsable_date w p.
Proof.
  unfold schedule_has_parsable_dates, has_parsable_date.
  destruct (schedule p) as [|sched|].
  - split; [discriminate|]. intros (? & ? & ? & _). discriminate.
  - rewrite existsb_exists. split.
    + intros (g & Hin & Hg). apply bool_decide_eq_true in Hg. eauto.
    + intros (sched' & g & [= <-] & Hin & Hg). exists g.
      split; [assumption|]. now apply bool_decide_eq_true.
  - split; [discriminate|]. intros (? & ? & ? & _). discriminate.
Qed.

Lemma schedule_has_parsable_dates_false w p :
  schedule_has_parsable_dates w p = false <-> ~ has_parsable_date w p.
Proof.
  rewrite <- schedule_has_parsable_dates_spec.
  destruct (schedule_has_parsable_dates w p); split; congruence.
Qed.

(** A schedule with a date that parses has an entry. *)
Lemma parsable_schedule_has_entry w p :
  schedule_has_parsable_dates w p = true ->
  exists g0 rest, schedule p = SchedList (g0 :: rest).
Proof.
  unfold schedule_has_parsable_dates.
  destruct (schedule p) as [|[|g0 rest]|]; try discriminate. eauto.
Qed.

(** On its first tier the resolver raises when the window does not end at a
    [datetime], and touches nothing. *)
Lemma games_next_n_days_overflow w p days s :
  schedule_has_parsable_dates w p = true ->
  window_ok w days = false ->
  exists msg, games_next_n_days w p days s = (Raise (PyError "OverflowError" msg), s).
Proof.
  intros Hp H. destruct (parsable_schedule_has_entry w p Hp) as (g0 & rest & E).
  destruct (games_from_schedule_overflow w p days g0 rest E H) as [msg Hmsg].
  exists msg. unfold games_next_n_days, lift. now rewrite Hp, Hmsg.
Qed.

(** ** Runs inside a snapshot *)

Section Snapshot.

Variable w : World.
Variable days : Z.
Variable K : TeamScheduleCache.

(** The window of the request ends at an instant [datetime] can hold. *)
Hypothesis Hwindow : window_ok w days = true.

Lemma yields_ret {A} (v : A) : yields w days K (ret v) v.
Proof. intros s Hs. exists s. now split. Qed.

Lemma yields_bind {A B} (m : M A) (k : A -> M B) a b :
  yields w days K m a -> yields w days K (k a) b -> yields w days K (bind m k) b.
Proof.
  intros Hm Hk s Hs. destruct (Hm s Hs) as (s1 & E1 & Hs1).
  destruct (Hk s1 Hs1) as (s2 & E2 & Hs2).
  exists s2. unfold bind. rewrite E1. now split.
Qed.

Lemma yields_mapM {A B} (f : A -> M B) (g : A -> B) l :
  (forall x, yields w days K (f x) (g x)) -> yields w days K (mapM f l) (g <$> l).
Proof.
  intros Hf. induction l as [|x l IH]; simpl.
  - apply yields_ret.
  - eapply yields_bind; [apply Hf|].
    eapply yields_bind; [apply IH|]. apply yields_ret.
Qed.

(** A call of [get_team_games_cache] in the snapshot returns the mapping of
    [K] and leaves exactly [K]. *)
Lemma get_in_snapshot s :
  in_snapshot w days K s ->
  exists s', get_team_games_cache w days DEFAULT_TTL s = (Ok (cache_counts K), s')
             /\ cache s' = K /\ in_snapshot w days K s'.
Proof.
  intros Hs. rewrite get_team_games_cache_run. unfold in_snapshot in *.
  rewrite Hs. eexists. split; [reflexivity|]. simpl. split; [reflexivity|].
  rewrite <- Hs. apply cache_after_idempotent.
Qed.

Lemma yields_get :
  yields w days K (get_team_games_cache w days DEFAULT_TTL) (cache_counts K).
Proof. intros s Hs. destruct (get_in_snapshot s Hs) as (s' & E & _ & Hs'). eauto. Qed.

(** Without a parsable schedule the resolver works from the snapshot,
    whatever the window. *)
Lemma yields_games_cached p :
  schedule_has_parsable_dates w p = false ->
  yields w days K (games_next_n_days w p days) (games_in K w p days).
Proof.
  intros Hp. unfold games_next_n_days, games_in, estimate_in. rewrite Hp.
  destruct (normalize_team_abbrev (proTeam p)) as [t|]; [|apply yields_ret].
  eapply yields_bind; [apply yields_get|].
  destruct (cache_counts K !! t); [apply yields_ret|].
  destruct ((map_to_list (cache_counts K)).*2); apply yields_ret.
Qed.

Lemma yields_games p : yields w days K (games_next_n_days w p days) (games_in K w p days).
Proof.
  destruct (schedule_has_parsable_dates w p) eqn:Hp; [|now apply yields_games_cached].
  unfold games_next_n_days, games_in. rewrite Hp.
  rewrite (games_from_schedule_run w p days Hwindow). apply yields_ret.
Qed.

Lemma yields_points p :
  yields w days K (projected_points_next_n_days w p days) (points_in K w p days).
Proof.
  unfold projected_points_next_n_days, points_in.
  eapply yields_bind; [apply yields_games|].
  destruct (_ && _); [apply yields_ret|].
  destruct (_ <=? _); apply yields_ret.
Qed.

Lemma yields_pack p dbg : yields w days K (pack_player w p days dbg) (packed_in K w p days dbg).
Proof.
  unfold pack_player.
  eapply yields_bind; [apply yields_games|].
  eapply yields_bind; [apply yields_points|].
  destruct dbg; [|apply yields_ret].
  intros s Hs. destruct (get_in_snapshot s Hs) as (s' & E & HK & Hs').
  exists s'. unfold bind, get_cache, ret. rewrite E. rewrite HK. now split.
Qed.

Lemma yields_sorted l reverse :
  yields w days K (sorted l (fun p => projected_points_next_n_days w p days) reverse)
         (sorted_in (fun p => points_in K w p days) reverse l).
Proof.
  unfold sorted, sorted_in.
  eapply yields_bind; [apply yields_mapM with (g := fun p => points_in K w p days)|].
  - intros p. apply yields_points.
  - apply yields_ret.
Qed.

Lemma yields_scan fa dps :
  yields w days K (scan_drop_candidates w days fa (points_in K w fa days) dps)
         (scan_in K w days fa dps).
Proof.
  unfold scan_in. induction dps as [|dp dps IH]; simpl.
  - apply yields_ret.
  - eapply yields_bind; [apply yields_points|].
    destruct (Qlt_bool _ _); [|apply IH].
    eapply yields_bind; [apply yields_pack|].
    eapply yields_bind; [apply yields_pack|]. apply yields_ret.
Qed.

Lemma yields_match limit dcs fas : forall recs used,
  yields w days K (match_free_agents w days limit dcs fas recs used)
         (match_in K w days limit dcs fas recs used).
Proof.
  induction fas as [|fa fas IH]; intros recs used; simpl.
  - apply yields_ret.
  - destruct (bool_decide _); [apply IH|].
    eapply yields_bind; [apply yields_points|].
    eapply yields_bind; [apply yields_scan|].
    destruct (scan_in K w days fa dcs) as [r|].
    + destruct (_ <=? _); [apply yields_ret | apply IH].
    + destruct (_ <=? _); [apply yields_ret | apply IH].
Qed.

End Snapshot.

(** ** The cache *)

Lemma cache_ok_true c now days ttl :
  cache_ok c now days ttl = true <->
  cache_days c = Some days /\ now - cache_ts c < ttl * US_PER_SECOND
  /\ cache_counts c <> ∅.
Proof.
  unfold cache_ok. rewrite !andb_true_iff, !bool_decide_eq_true, Z.ltb_lt.
  rewrite <- (map_size_non_empty_iff (cache_counts c)). intuition lia.
Qed.

Lemma cache_ok_empty c now days ttl :
  cache_counts c = ∅ -> cache_ok c now days ttl = false.
Proof.
  intros H. apply not_true_iff_false. rewrite cache_ok_true. tauto.
Qed.

(** C1, as amended.  A call that finds the cached window equal to the
    requested one, less than [ttl_seconds] elapsed since the last refresh and
    a non-empty mapping returns the cached mapping and changes nothing: no
    refresh, no scoreboard query.  A refresh that fails leaves an empty
    mapping with the timestamp, the window and the error recorded; from that
    state every later call, whatever its time and window, refreshes again. *)
Theorem get_counts_caching w days ttl s :
  (cache_days (cache s) = Some days ->
   clock w - cache_ts (cache s) < ttl * US_PER_SECOND ->
   cache_counts (cache s) <> ∅ ->
   get_team_games_cache w days ttl s = (Ok (cache_counts (cache s)), s))
  /\
  (forall e s0,
     cache_ok (cache s) (clock w) days ttl = false ->
     _compute_team_games_next_n_days w days s = (Raise e, s0) ->
     exists s1,
       get_team_games_cache w days ttl s = (Ok ∅, s1)
       /\ log s1 = log s0
       /\ cache_counts (cache s1) = ∅
       /\ cache_ts (cache s1) = clock w
       /\ cache_days (cache s1) = Some days
       /\ is_Some (cache_last_error (cache s1))
       /\ forall w' days' ttl', exists r s2 l,
            get_team_games_cache w' days' ttl' s1 = (r, s2)
            /\ log s2 = (log s1 ++ EvRefresh days' :: l)%list).
Proof.
  split.
  - intros Hd Ht Hc. rewrite get_team_games_cache_run.
    assert (E : cache_ok (cache s) (clock w) days ttl = true)
      by (apply cache_ok_true; auto).
    unfold cache_after. rewrite E. now destruct s.
  - intros e s0 Hok Hrun. rewrite compute_run in Hrun. injection Hrun as Ho <-.
    rewrite get_team_games_cache_run. unfold cache_after. rewrite Hok, Ho.
    assert (Hempty : cache_counts (refreshed_cache w days (Raise e)) = ∅)
      by (destruct e; reflexivity).
    eexists. split; [now rewrite Hempty|]. simpl.
    repeat split; try (destruct e; simpl; eauto; fail).
    intros w' days' ttl'. rewrite get_team_games_cache_run. simpl.
    rewrite (cache_ok_empty _ _ _ _ Hempty).
    destruct (refresh_events_head w' days') as [l ->]. eauto.
Qed.

(** C1 as stated fails: the scoreboard is unreachable, the first call fails
    at [t0], and a second call one second later, for the same window and
    well within the 900 seconds, refreshes and queries the scoreboard again. *)
Lemma failed_refresh_is_retried_within_ttl :
  exists s1 s2,
    get_team_games_cache (Examples.offline Examples.t0) 7 900 empty_state = (Ok ∅, s1)
    /\ cache_last_error (cache s1) = Some "URLError: <urlopen error timed out>"
    /\ cache_days (cache s1) = Some 7
    /\ cache_ts (cache s1) = Examples.t0
    /\ (Examples.t0 + 1000000) - cache_ts (cache s1) < 900 * US_PER_SECOND
    /\ get_team_games_cache (Examples.offline (Examples.t0 + 1000000)) 7 900 s1
       = (Ok ∅, s2)
    /\ log s2 = (log s1 ++ [EvRefresh 7; EvFetch 20760])%list.
Proof.
  eexists _, _. split; [vm_compute; reflexivity|].
  repeat split; vm_compute; reflexivity.
Qed.

(** ** Rounding and the league average *)

(** [py_round] returns a nearest integer: it is at most one half away. *)
Lemma py_round_nearest (x : Q) :
  2 * Z.abs (py_round x * Z.pos (Qden x) - Qnum x) <= Z.pos (Qden x).
Proof.
  unfold py_round. destruct x as [n d]. simpl.
  pose proof (Z.div_mod n (Z.pos d) ltac:(lia)) as Hdm.
  pose proof (Z.mod_pos_bound n (Z.pos d) ltac:(lia)) as Hb.
  set (fl := n `div` Z.pos d) in *. set (m := n `mod` Z.pos d) in *.
  destruct (Z.compare_spec (2 * m) (Z.pos d)) as [E|E|E];
    [destruct (Z.even fl)| |]; lia.
Qed.

Lemma py_round_ge_floor (x : Q) : Qnum x `div` Z.pos (Qden x) <= py_round x.
Proof.
  unfold py_round. destruct (_ ?= _); [destruct (Z.even _)| |]; lia.
Qed.

Lemma league_avg_fraction (v : Z) (present : list Z) :
  exists d, Z.pos d = Z.of_nat (length (v :: present))
            /\ league_avg (v :: present) = (sum_values (v :: present) # d)%Q.
Proof.
  unfold league_avg. generalize (sum_values (v :: present)). intros S.
  simpl length. rewrite Nat2Z.inj_succ.
  destruct (Z.succ (Z.of_nat (length present))) as [|d|d] eqn:E; try lia.
  exists d. split; [reflexivity|].
  unfold Qdiv, Qinv, Qmult, inject_Z. simpl. now rewrite Z.mul_1_r.
Qed.

(** The estimate of a non-empty list is within one half of its mean [S / n]. *)
Lemma estimate_nearest (v : Z) (present : list Z) :
  let l := v :: present in
  2 * Z.abs (py_round (league_avg l) * Z.of_nat (length l) - sum_values l)
  <= Z.of_nat (length l).
Proof.
  intros l. destruct (league_avg_fraction v present) as (d & Hd & E).
  fold l in Hd, E. rewrite E, <- Hd.
  apply (py_round_nearest (sum_values l # d)%Q).
Qed.

Lemma sum_values_ge (present : list Z) :
  (forall v, In v present -> 1 <= v) ->
  Z.of_nat (length present) <= sum_values present.
Proof.
  induction present as [|v l IH]; simpl; intros H; [lia|].
  specialize (IH (fun x Hx => H x (or_intror Hx))).
  specialize (H v (or_introl eq_refl)). lia.
Qed.

(** When every count is at least one, so is the estimate. *)
Lemma estimate_ge_1 (v : Z) (present : list Z) :
  (forall x, In x (v :: present) -> 1 <= x) ->
  1 <= py_round (league_avg (v :: present)).
Proof.
  intros H. apply sum_values_ge in H.
  destruct (league_avg_fraction v present) as (d & Hd & E). rewrite E.
  etransitivity; [|apply py_round_ge_floor]. cbn [Qnum Qden].
  rewrite Hd. apply Z.div_le_lower_bound; lia.
Qed.

Lemma counts_wf_values (m : gmap string Z) :
  counts_wf m -> forall v, In v (map_to_list m).*2 -> 1 <= v.
Proof.
  intros Hm v Hv. apply list_elem_of_In, list_elem_of_fmap in Hv as ([k v'] & -> & Hkv).
  apply elem_of_map_to_list in Hkv. now destruct (Hm _ _ Hkv).
Qed.

Lemma map_values_nil (m : gmap string Z) : (map_to_list m).*2 = [] <-> m = ∅.
Proof.
  split.
  - intros H. apply map_to_list_empty_iff. now destruct (map_to_list m).
  - intros ->. now rewrite map_to_list_empty.
Qed.

Lemma estimate_in_ge_1 (m : gmap string Z) :
  counts_wf m -> m <> ∅ -> 1 <= estimate_in m.
Proof.
  intros Hm Hne. unfold estimate_in.
  pose proof (counts_wf_values m Hm) as Hv.
  destruct ((map_to_list m).*2) as [|v l] eqn:E.
  - now apply map_values_nil in E.
  - now apply estimate_ge_1.
Qed.

(** ** The resolver, run *)

(** Unless the window overflows on the first tier, a call of the resolver
    computes [games_in] from the cache record the call leaves. *)
Lemma games_next_n_days_run w p days s :
  window_ok w days = true \/ schedule_has_parsable_dates w p = false ->
  exists s',
    games_next_n_days w p days s
    = (Ok (games_in (cache_after w days DEFAULT_TTL (cache s)) w p days), s')
    /\ cache_after w days DEFAULT_TTL (cache s') = cache_after w days DEFAULT_TTL (cache s).
Proof.
  intros [H|H].
  - now apply yields_games.
  - now apply yields_games_cached.
Qed.

(** The projection passes on what the resolver raises. *)
Lemma projected_points_raise w p days s e s' :
  games_next_n_days w p days s = (Raise e, s') ->
  projected_points_next_n_days w p days s = (Raise e, s').
Proof. intros E. unfold projected_points_next_n_days, bind. now rewrite E. Qed.

(** The projection is the three-way policy on what the resolver returns. *)
Lemma projected_points_ok w p days s g s' :
  games_next_n_days w p days s = (Ok g, s') ->
  projected_points_next_n_days w p days s
  = (Ok (projection_of (get_points_per_game p) g (schedule_has_parsable_dates w p)), s').
Proof.
  intros E. unfold projected_points_next_n_days, projection_of, bind, ret. rewrite E.
  destruct (_ && _); [reflexivity|]. now destruct (_ <=? _).
Qed.

Lemma reachable_after w days ttl c : reachable c -> reachable (cache_after w days ttl c).
Proof.
  intros H.
  apply (reachable_call w days ttl {| cache := c; log := [] |}
           _ _ H (get_team_games_cache_run w days ttl _)).
Qed.

Lemma games_in_nonneg K w p days :
  counts_wf (cache_counts K) -> 0 <= games_in K w p days.
Proof.
  intros HK. unfold games_in.
  destruct (schedule_has_parsable_dates w p); [apply count_in_window_nonneg|].
  destruct (normalize_team_abbrev (proTeam p)) as [t|]; [|lia].
  destruct (cache_counts K !! t) as [v|] eqn:E.
  - destruct (HK _ _ E). lia.
  - unfold estimate_in. pose proof (counts_wf_values _ HK) as Hv.
    destruct ((map_to_list (cache_counts K)).*2) as [|v l]; [lia|].
    pose proof (estimate_ge_1 v l Hv). lia.
Qed.

(** The two cases of a request: the resolver can answer, or it is on its
    first tier with a window that overflows. *)
Lemma resolvable_or_overflow w p days :
  (window_ok w days = true \/ schedule_has_parsable_dates w p = false)
  \/ (window_ok w days = false /\ schedule_has_parsable_dates w p = true).
Proof.
  destruct (window_ok w days); [now left; left|].
  destruct (schedule_has_parsable_dates w p); [now right | now left; right].
Qed.

Lemma mul_one_r_Q (r : Q) : (r * 1)%Q = r.
Proof. destruct r as [n d]. unfold Qmult. simpl. now rewrite Z.mul_1_r, Pos.mul_1_r. Qed.

Lemma projection_of_nonneg r g parsable :
  0 <= g -> (0 <= r)%Q -> (0 <= projection_of r g parsable)%Q.
Proof.
  intros Hg Hr. unfold projection_of.
  destruct (_ && _); [apply Qle_refl|].
  destruct (g <=? 0).
  - apply Qmult_le_0_compat; [assumption | discriminate].
  - apply Qmult_le_0_compat; [assumption|]. unfold Qle, inject_Z. simpl. lia.
Qed.

(** ** The claims about the resolver and the projection *)

(** C3, as amended.  When the player's schedule is a list with at least one
    entry whose date parses and the window ends at an instant [datetime] can
    hold, [games_next_n_days] returns the number of entries whose parsed
    instant [t] satisfies [now <= t <= now + days], both ends included,
    entries that do not parse not being counted.  It returns that number
    also when it is zero, whatever the cache holds, and leaves the state as
    it found it: no cache lookup, no refresh, no query.  With any other
    window it raises [OverflowError], the state again left as it was.  The
    window ends at such an instant when [days] has at most nine digits and
    [now + days] lies in the years 1 to 9999. *)
Theorem tier1_exclusive_inclusive_window w p days s sched :
  schedule p = SchedList sched ->
  (exists g, In g sched /\ is_Some (_parse_game_datetime w g)) ->
  (window_ok w days = true ->
   games_next_n_days w p days s
   = (Ok (Z.of_nat (length (List.filter (in_window w days) sched))), s))
  /\ (window_ok w days = false ->
      exists msg,
        games_next_n_days w p days s = (Raise (PyError "OverflowError" msg), s))
  /\ (forall g, in_window w days g = true <->
        exists t, _parse_game_datetime w g = Some t
                  /\ clock w <= t <= clock w + days * US_PER_DAY)
  /\ (window_ok w days = true <->
      Z.abs days <= TIMEDELTA_MAX_DAYS
      /\ DATETIME_MIN <= clock w + days * US_PER_DAY <= DATETIME_MAX).
Proof.
  intros Hsched (g & Hin & Hg).
  assert (Hp : schedule_has_parsable_dates w p = true).
  { apply schedule_has_parsable_dates_spec. exists sched, g. auto. }
  split; [|split; [|split]].
  - intros H. unfold games_next_n_days, lift.
    rewrite Hp, (games_from_schedule_run w p days H).
    unfold count_in_window. now rewrite Hsched.
  - intros H. now apply games_next_n_days_overflow.
  - intros g'. apply in_window_spec.
  - apply window_ok_spec.
Qed.

(** C3 as stated fails for a window that ends after the year 9999: the
    schedule has dates that parse and four of its entries are not before
    now, but the resolver raises instead of returning their number. *)
Lemma tier1_count_raises_beyond_calendar :
  has_parsable_date (Examples.season Examples.t0) Witness.three_games
  /\ count_in_window (Examples.season Examples.t0) 3000000 Witness.three_games = 4
  /\ games_next_n_days (Examples.season Examples.t0) Witness.three_games 3000000
       empty_state
     = (Raise (PyError "OverflowError" "date value out of range"), empty_state).
Proof.
  split; [|split; vm_compute; reflexivity].
  eexists _, _. split; [reflexivity|]. split; [left; reflexivity|].
  vm_compute. eauto.
Qed.

(** C2, as amended.  The rate is the provider's projected average when
    [float] accepts it, else the historical average with absence read as 0.
    Whenever the resolver answers, which it does unless the player's own
    schedule has a date that parses and the window does not end at an
    instant [datetime] can hold, and with [g] the games it returns: the
    projection is exactly 0 when [g = 0] and the schedule has a date that
    parses; else the rate itself when [g <= 0]; else the rate times [g].
    In the remaining case the resolver raises [OverflowError] and the
    projection raises it too. *)
Theorem three_way_projection w p days s :
  let r := get_points_per_game p in
  (forall q, projected_avg_points p = AttrNum q -> r = q)
  /\ ((forall q, projected_avg_points p <> AttrNum q) ->
      r = match avg_points p with Some a => a | None => 0%Q end)
  /\ ((window_ok w days = true \/ ~ has_parsable_date w p) ->
      exists g v s',
        games_next_n_days w p days s = (Ok g, s')
        /\ projected_points_next_n_days w p days s = (Ok v, s')
        /\ (g = 0 -> has_parsable_date w p -> v = 0%Q)
        /\ (~ (g = 0 /\ has_parsable_date w p) -> g <= 0 -> v = r)
        /\ (~ (g = 0 /\ has_parsable_date w p) -> 0 < g -> v = (r * inject_Z g)%Q))
  /\ (window_ok w days = false -> has_parsable_date w p ->
      exists msg,
        games_next_n_days w p days s = (Raise (PyError "OverflowError" msg), s)
        /\ projected_points_next_n_days w p days s
           = (Raise (PyError "OverflowError" msg), s)).
Proof.
  intros r. split; [|split; [|split]].
  - intros q E. unfold r, get_points_per_game. now rewrite E.
  - intros E. unfold r, get_points_per_game.
    destruct (projected_avg_points p) as [|q|]; try reflexivity.
    now destruct (E q).
  - intros H.
    assert (H' : window_ok w days = true \/ schedule_has_parsable_dates w p = false).
    { destruct H as [H|H]; [now left|].
      right. now apply schedule_has_parsable_dates_false. }
    destruct (games_next_n_days_run w p days s H') as (s' & Eg & _).
    set (g := games_in _ w p days) in Eg.
    rewrite (projected_points_ok w p days s g s' Eg). fold r.
    unfold projection_of.
    destruct (g =? 0) eqn:E0; [apply Z.eqb_eq in E0 | apply Z.eqb_neq in E0].
    + destruct (schedule_has_parsable_dates w p) eqn:Ep; simpl.
      * apply schedule_has_parsable_dates_spec in Ep.
        exists g, 0%Q, s'. repeat split; try tauto; lia.
      * apply schedule_has_parsable_dates_false in Ep.
        replace (g <=? 0) with true by (symmetry; apply Z.leb_le; lia).
        exists g, (r * 1)%Q, s'. repeat split; try tauto; try lia.
        intros _ _. apply mul_one_r_Q.
    + simpl. destruct (g <=? 0) eqn:E1;
        [apply Z.leb_le in E1 | apply Z.leb_gt in E1].
      * exists g, (r * 1)%Q, s'. repeat split; try tauto; try lia.
        intros _ _. apply mul_one_r_Q.
      * exists g, (r * inject_Z g)%Q, s'. repeat split; try tauto; lia.
  - intros H Hp. apply schedule_has_parsable_dates_spec in Hp.
    destruct (games_next_n_days_overflow w p days s Hp H) as [msg E].
    exists msg. split; [exact E|]. now apply projected_points_raise.
Qed.

(** C2 as stated fails for a window that ends after the year 9999: for a
    player with a rate of 10 and a schedule whose dates parse there is no
    game count and no projection, the request raises. *)
Lemma projection_raises_beyond_calendar :
  get_points_per_game Witness.three_games = 10%Q
  /\ has_parsable_date (Examples.season Examples.t0) Witness.three_games
  /\ projected_points_next_n_days (Examples.season Examples.t0) Witness.three_games
       3000000 empty_state
     = (Raise (PyError "OverflowError" "date value out of range"), empty_state).
Proof.
  split; [reflexivity|]. split; [|vm_compute; reflexivity].
  eexists _, _. split; [reflexivity|]. split; [left; reflexivity|].
  vm_compute. eauto.
Qed.

(** C5.  For a player without a parsable schedule whose team code normalizes
    to a canonical code that is missing from a non-empty mapping returned by
    the cache, [games_next_n_days] returns [round(S / n)], [S] the sum of the
    counts present and [n] their number: an integer at most one half away
    from the mean (a tie goes to the even neighbour). *)
Theorem league_average_estimate w p days s team counts s' :
  ~ has_parsable_date w p ->
  normalize_team_abbrev (proTeam p) = Some team ->
  get_team_games_cache w days DEFAULT_TTL s = (Ok counts, s') ->
  counts !! team = None ->
  counts <> ∅ ->
  let present := (map_to_list counts).*2 in
  let n := Z.of_nat (length present) in
  exists r,
    games_next_n_days w p days s = (Ok r, s')
    /\ r = py_round (league_avg present)
    /\ 0 < n
    /\ 2 * Z.abs (r * n - sum_values present) <= n.
Proof.
  intros Hp Ht Hget Hteam Hne present n.
  apply schedule_has_parsable_dates_false in Hp.
  unfold games_next_n_days, bind. rewrite Hp, Ht, Hget, Hteam. fold present.
  destruct present as [|v l] eqn:E.
  - apply map_values_nil in E. contradiction.
  - exists (py_round (league_avg (v :: l))). unfold ret.
    split; [reflexivity|]. split; [reflexivity|].
    split; [unfold n; simpl length; lia|]. apply estimate_nearest.
Qed.

(** C7, as amended.  [get_team_games_cache] always returns a mapping, and
    [games_next_n_days] returns an integer for every player whose own
    schedule has no date that parses, and for every player when the window
    ends at an instant [datetime] can hold; for a player whose schedule has
    a date that parses and any other window it raises [OverflowError].  An
    exception raised while the refresh aggregates the scoreboard is caught:
    the call returns the empty mapping, the cache holds the empty mapping
    and the error detail, and a player without a parsable schedule gets 0
    games. *)
Theorem resolution_raises_only_on_overflow w p days s :
  ((window_ok w days = true \/ ~ has_parsable_date w p) ->
   exists n s', games_next_n_days w p days s = (Ok n, s'))
  /\ (window_ok w days = false -> has_parsable_date w p ->
      exists msg,
        games_next_n_days w p days s = (Raise (PyError "OverflowError" msg), s))
  /\ (forall ttl, exists c s', get_team_games_cache w days ttl s = (Ok c, s'))
  /\ (forall ttl e s0,
        cache_ok (cache s) (clock w) days ttl = false ->
        _compute_team_games_next_n_days w days s = (Raise e, s0) ->
        exists s1 prefix,
          get_team_games_cache w days ttl s = (Ok ∅, s1)
          /\ cache_counts (cache s1) = ∅
          /\ cache_last_error (cache s1) = Some (prefix ++ exn_str e)%string
          /\ (ttl = DEFAULT_TTL -> ~ has_parsable_date w p ->
              exists s2, games_next_n_days w p days s = (Ok 0, s2))).
Proof.
  split; [|split; [|split]].
  - intros H.
    assert (H' : window_ok w days = true \/ schedule_has_parsable_dates w p = false).
    { destruct H as [H|H]; [now left|].
      right. now apply schedule_has_parsable_dates_false. }
    destruct (games_next_n_days_run w p days s H') as (s' & E & _). eauto.
  - intros H Hp. apply schedule_has_parsable_dates_spec in Hp.
    now apply games_next_n_days_overflow.
  - intros ttl. rewrite get_team_games_cache_run. eauto.
  - intros ttl e s0 Hok Hrun. rewrite compute_run in Hrun. injection Hrun as Ho _.
    rewrite get_team_games_cache_run. unfold cache_after. rewrite Hok, Ho.
    assert (Hempty : cache_counts (refreshed_cache w days (Raise e)) = ∅)
      by (destruct e; reflexivity).
    assert (Herr : exists prefix, cache_last_error (refreshed_cache w days (Raise e))
                                  = Some (prefix ++ exn_str e)%string)
      by (destruct e; simpl; eauto).
    destruct Herr as [prefix Herr].
    eexists _, prefix. split; [now rewrite Hempty|]. simpl.
    split; [assumption|]. split; [assumption|].
    intros -> Hp. apply schedule_has_parsable_dates_false in Hp.
    unfold games_next_n_days, bind. rewrite Hp.
    destruct (normalize_team_abbrev (proTeam p)) as [t|]; [|unfold ret; eauto].
    rewrite get_team_games_cache_run. unfold cache_after. rewrite Hok, Ho, Hempty.
    rewrite lookup_empty, map_to_list_empty. unfold ret. simpl. eauto.
Qed.

(** C7 as stated fails on the first tier: for a player whose schedule has a
    date that parses, a window that ends after the year 9999 or before the
    year 1 makes the resolver raise, with the scoreboard never asked. *)
Lemma resolution_raises_beyond_calendar :
  has_parsable_date (Examples.season Examples.t0) Witness.bye_week
  /\ games_next_n_days (Examples.season Examples.t0) Witness.bye_week 3000000
       empty_state
     = (Raise (PyError "OverflowError" "date value out of range"), empty_state)
  /\ games_next_n_days (Examples.season Examples.t0) Witness.bye_week (-3000000)
       empty_state
     = (Raise (PyError "OverflowError" "date value out of range"), empty_state).
Proof.
  split; [|split; vm_compute; reflexivity].
  eexists _, _. split; [reflexivity|]. split; [left; reflexivity|].
  vm_compute. eauto.
Qed.

(** C8, as amended.  From a cache state the program can reach, whatever
    [games_next_n_days] returns is an integer that is at least 0, and
    whatever [projected_points_next_n_days] returns is at least 0 when the
    player's scoring rate is.  They return for every player whose own
    schedule has no date that parses, and for every player when the window
    ends at an instant [datetime] can hold. *)
Theorem nonnegative_outputs w p days s :
  reachable (cache s) ->
  (forall g s', games_next_n_days w p days s = (Ok g, s') -> 0 <= g)
  /\ (forall v s', projected_points_next_n_days w p days s = (Ok v, s') ->
        (0 <= get_points_per_game p)%Q -> (0 <= v)%Q)
  /\ ((window_ok w days = true \/ ~ has_parsable_date w p) ->
      exists g v s',
        games_next_n_days w p days s = (Ok g, s')
        /\ projected_points_next_n_days w p days s = (Ok v, s')
        /\ 0 <= g
        /\ ((0 <= get_points_per_game p)%Q -> (0 <= v)%Q)).
Proof.
  intros Hr.
  pose proof (games_in_nonneg (cache_after w days DEFAULT_TTL (cache s)) w p days
                (reachable_wf _ (reachable_after w days DEFAULT_TTL _ Hr))) as Hg.
  assert (Hgames : forall g s', games_next_n_days w p days s = (Ok g, s') -> 0 <= g).
  { intros g s' E.
    destruct (resolvable_or_overflow w p days) as [H|[H Hp]].
    - destruct (games_next_n_days_run w p days s H) as (s1 & E1 & _).
      rewrite E1 in E. now injection E as <- _.
    - destruct (games_next_n_days_overflow w p days s Hp H) as [msg E1].
      rewrite E1 in E. discriminate. }
  split; [exact Hgames|]. split.
  - intros v s' E Hq.
    destruct (games_next_n_days w p days s) as [[g|e] s1] eqn:Eg.
    + rewrite (projected_points_ok w p days s g s1 Eg) in E. injection E as <- _.
      apply projection_of_nonneg; [now apply (Hgames g s1) | assumption].
    + rewrite (projected_points_raise w p days s e s1 Eg) in E. discriminate.
  - intros H.
    assert (H' : window_ok w days = true \/ schedule_has_parsable_dates w p = false).
    { destruct H as [H|H]; [now left|].
      right. now apply schedule_has_parsable_dates_false. }
    destruct (games_next_n_days_run w p days s H') as (s' & Eg & _).
    set (g := games_in _ w p days) in *.
    exists g, (projection_of (get_points_per_game p) g (schedule_has_parsable_dates w p)), s'.
    split; [exact Eg|]. split; [now apply projected_points_ok|].
    split; [exact Hg|]. now apply projection_of_nonneg.
Qed.

(** C8 as stated fails for the projection: a player who averages -1.5 points
    and whose team plays on each of the 8 days of the window is projected at
    -12 points. *)
Lemma negative_rate_gives_negative_projection :
  exists v s',
    projected_points_next_n_days (Examples.season Examples.t0)
      (Examples.player 7 "LAL" (-3 # 2) SchedNone) 7 empty_state = (Ok v, s')
    /\ (v == -12)%Q /\ (v < 0)%Q.
Proof.
  eexists _, _. split; [vm_compute; reflexivity|]. split; reflexivity.
Qed.


(** C10, as amended.  Every value of a mapping returned from a reachable
    cache is at least 1.  So, for a player without a parsable schedule whose
    team normalizes: a team found in the mapping gets its count, which is
    not 0; a team missing from a non-empty mapping gets the league-average
    estimate, which is at least 1; a team missing from an empty mapping, also
    one that a successful refresh produced, gets 0. *)
Theorem cache_values_positive w p days s counts s' team :
  reachable (cache s) ->
  get_team_games_cache w days DEFAULT_TTL s = (Ok counts, s') ->
  ~ has_parsable_date w p ->
  normalize_team_abbrev (proTeam p) = Some team ->
  (forall k v, counts !! k = Some v -> 1 <= v)
  /\ (forall v, counts !! team = Some v ->
        games_next_n_days w p days s = (Ok v, s') /\ v <> 0)
  /\ (counts !! team = None -> counts <> ∅ ->
        exists r, games_next_n_days w p days s = (Ok r, s')
                  /\ r = py_round (league_avg (map_to_list counts).*2) /\ 1 <= r)
  /\ (counts !! team = None -> counts = ∅ ->
        games_next_n_days w p days s = (Ok 0, s')).
Proof.
  intros Hr Hget Hp Ht.
  assert (Hwf : counts_wf counts).
  { destruct (get_team_games_cache_returns w days DEFAULT_TTL s)
      as (c & s1 & E & _ & Hwf).
    rewrite E in Hget. injection Hget as <- _. apply Hwf, reachable_wf, Hr. }
  apply schedule_has_parsable_dates_false in Hp.
  assert (Hrun : games_next_n_days w p days s
                 = (Ok (match counts !! team with
                        | Some v => v
                        | None => estimate_in counts
                        end), s')).
  { unfold games_next_n_days, bind, estimate_in. rewrite Hp, Ht, Hget.
    destruct (counts !! team); [reflexivity|].
    now destruct ((map_to_list counts).*2). }
  split; [|split; [|split]].
  - intros k v Hv. now destruct (Hwf _ _ Hv).
  - intros v Hv. rewrite Hrun, Hv. split; [reflexivity|].
    destruct (Hwf _ _ Hv). lia.
  - intros Hnone Hne. rewrite Hrun, Hnone. exists (estimate_in counts).
    split; [reflexivity|]. split; [|now apply estimate_in_ge_1].
    unfold estimate_in. destruct ((map_to_list counts).*2) eqn:E; [|reflexivity].
    now apply map_values_nil in E.
  - intros Hnone ->. now rewrite Hrun, Hnone.
Qed.

(** C10 as stated fails when no team plays in the window: the refresh
    succeeds with an empty mapping and the Lakers, who have no game, get 0
    games instead of a league-average estimate. *)
Lemma idle_team_gets_zero_when_nobody_plays :
  exists s',
    get_team_games_cache (Examples.off_season Examples.t0) 7 DEFAULT_TTL empty_state
    = (Ok ∅, s')
    /\ cache_last_status (cache s') = Some 200
    /\ cache_last_error (cache s') = None
    /\ normalize_team_abbrev (proTeam (Examples.player 23 "LAL" 25 SchedNone))
       = Some "LAL"
    /\ games_next_n_days (Examples.off_season Examples.t0)
         (Examples.player 23 "LAL" 25 SchedNone) 7 empty_state = (Ok 0, s').
Proof.
  eexists. split; [vm_compute; reflexivity|]. repeat split; vm_compute; reflexivity.
Qed.

(** ** Sorting *)



Section Sorting.

Context {A : Type}.
Variable reverse : bool.






End Sorting.





(** ** The recommendation engine *)


Lemma find_forced_drop_Some roster i p :
  find_forced_drop roster i = Some p -> In p roster /\ get_player_id p = Some i.
Proof.
  unfold find_forced_drop. intros E. apply find_some in E as [Hin Hp].
  now apply bool_decide_eq_true in Hp.
Qed.

(** What [waiver_recommendations] does once the drop candidates are known. *)
Lemma yields_waiver_tail w days K limit (team : Team) drop_player_id
    (drop_candidates fas : list Player) :
  window_ok w days = true ->
  yields w days K
    (let* free_agents_sorted :=
       sorted fas (fun p => projected_points_next_n_days w p days) true in
     let* recommendations :=
       match_free_agents w days limit drop_candidates free_agents_sorted [] ∅ in
     let* used := mapM (fun p => pack_player w p days false) drop_candidates in
     ret (FullResponse (team_name team) days drop_player_id used recommendations))
    (FullResponse (team_name team) days drop_player_id
       ((fun p => packed_in K w p days false) <$> drop_candidates)
       (match_in K w days limit drop_candidates
          (sorted_in (fun p => points_in K w p days) true fas) [] ∅)).
Proof.
  intros Hwin.
  eapply yields_bind; [now apply yields_sorted|].
  eapply yields_bind; [now apply yields_match|].
  eapply yields_bind;
    [apply yields_mapM with (g := fun p => packed_in K w p days false)|].
  - intros p. now apply yields_pack.
  - apply yields_ret.
Qed.

(** A run of [waiver_recommendations] that gets past the lookups, in terms
    of the snapshot of the cache it works with. *)
Lemma waiver_recommendations_run w league tid limit pool_size days drop_player_id s
    team p0 rest forced_drop :
  window_ok w days = true ->
  find (fun t => team_id t =? tid) (teams league) = Some team ->
  filter (fun p => is_unavailable p = false) (roster team) = p0 :: rest ->
  forced_drop_in (p0 :: rest) drop_player_id forced_drop ->
  let K := cache_after w days DEFAULT_TTL (cache s) in
  let pts := fun p => points_in K w p days in
  let dcs := drop_candidates_in pts (p0 :: rest) forced_drop in
  let fas := sorted_in pts true
               (filter (fun p => is_unavailable p = false)
                  (free_agents league pool_size)) in
  exists s',
    waiver_recommendations w (Ok league) tid limit pool_size days drop_player_id s
    = (Ok (FullResponse (team_name team) days drop_player_id
             ((fun p => packed_in K w p days false) <$> dcs)
             (match_in K w days limit dcs fas [] ∅)), s').
Proof.
  intros Hwin Hteam Hroster Hforced K pts dcs fas.
  assert (Hs : in_snapshot w days K s) by reflexivity.
  unfold waiver_recommendations. rewrite Hteam, Hroster.
  assert (Y : forall m : M (option Player),
             m s = (Ok forced_drop, s) ->
             exists s',
               (let* forced_drop := m in
                let* by_points :=
                  sorted (p0 :: rest)
                    (fun p => projected_points_next_n_days w p days) false in
                let drop_candidates :=
                  match forced_drop with
                  | Some p => [p]
                  | None => take 6 by_points
                  end in
                let free_agents :=
                  filter (fun p => is_unavailable p = false)
                    (free_agents league pool_size) in
                let* free_agents_sorted :=
                  sorted free_agents
                    (fun p => projected_points_next_n_days w p days) true in
                let* recommendations :=
                  match_free_agents w days limit drop_candidates
                    free_agents_sorted [] ∅ in
                let* used :=
                  mapM (fun p => pack_player w p days false) drop_candidates in
                ret (FullResponse (team_name team) days drop_player_id used
                       recommendations)) s
               = (Ok (FullResponse (team_name team) days drop_player_id
                        ((fun p => packed_in K w p days false) <$> dcs)
                        (match_in K w days limit dcs fas [] ∅)), s')).
  { intros m Hm. unfold bind at 1. rewrite Hm.
    assert (Y : yields w days K
                  (let* by_points :=
                     sorted (p0 :: rest)
                       (fun p => projected_points_next_n_days w p days) false in
                   let drop_candidates :=
                     match forced_drop with
                     | Some p => [p]
                     | None => take 6 by_points
                     end in
                   let free_agents :=
                     filter (fun p => is_unavailable p = false)
                       (free_agents league pool_size) in
                   let* free_agents_sorted :=
                     sorted free_agents
                       (fun p => projected_points_next_n_days w p days) true in
                   let* recommendations :=
                     match_free_agents w days limit drop_candidates
                       free_agents_sorted [] ∅ in
                   let* used :=
                     mapM (fun p => pack_player w p days false) drop_candidates in
                   ret (FullResponse (team_name team) days drop_player_id used
                          recommendations))
                  (FullResponse (team_name team) days drop_player_id
                     ((fun p => packed_in K w p days false) <$> dcs)
                     (match_in K w days limit dcs fas [] ∅))).
    { eapply yields_bind; [now apply yields_sorted|]. now apply yields_waiver_tail. }
    destruct (Y s Hs) as (s' & E & _). eauto. }
  apply Y. unfold forced_drop_in in Hforced.
  destruct drop_player_id as [i|].
  - destruct Hforced as [Hfind [p Hp]]. rewrite Hfind, Hp. reflexivity.
  - now rewrite Hforced.
Qed.



(** *** The greedy matching *)

Lemma Qlt_bool_iff a b : Qlt_bool a b = true <-> (a < b)%Q.
Proof.
  unfold Qlt_bool. rewrite negb_true_iff. split.
  - intros H. apply Qnot_le_lt. intros Hle. apply Qle_bool_iff in Hle. congruence.
  - intros H. apply not_true_iff_false. intros Hle. apply Qle_bool_iff in Hle.
    now apply Qlt_not_le in H.
Qed.

Lemma gain_positive_iff a b : Qlt_bool 0 (a - b) = true <-> (b < a)%Q.
Proof. rewrite Qlt_bool_iff. symmetry. apply Qlt_minus_iff. Qed.

(** [first_beaten] finds the first candidate with strictly fewer points. *)
Lemma first_beaten_spec pts x dps dp :
  first_beaten pts x dps = Some dp <->
  exists l1 l2, dps = (l1 ++ dp :: l2)%list /\ (pts dp < x)%Q
                /\ Forall (fun q => ~ (pts q < x)%Q) l1.
Proof.
  induction dps as [|d dps IH]; simpl.
  - split; [discriminate|]. intros (l1 & l2 & H & _). now destruct l1.
  - destruct (Qlt_bool 0 (x - pts d)) eqn:E.
    + apply gain_positive_iff in E. split.
      * intros [= <-]. exists [], dps. repeat split; [assumption | constructor].
      * intros (l1 & l2 & H & Hlt & Hall). destruct l1 as [|q l1]; simpl in H.
        -- now injection H as ->.
        -- injection H as <- _. apply Forall_cons in Hall as [Hq _]. contradiction.
    + assert (Hn : ~ (pts d < x)%Q).
      { intros H. apply gain_positive_iff in H. congruence. }
      rewrite IH. split.
      * intros (l1 & l2 & -> & Hlt & Hall). exists (d :: l1), l2.
        repeat split; [assumption | now constructor].
      * intros (l1 & l2 & H & Hlt & Hall). destruct l1 as [|q l1]; simpl in H.
        -- injection H as -> _. contradiction.
        -- injection H as <- ->. apply Forall_cons in Hall as [_ Hall]. eauto.
Qed.






(** The example of the specification, with a limit of 2: the best free agent
    is paired with the weakest rostered player, and so is the second. *)
Example spec_example_limit_two :
  exists r s',
    waiver_recommendations WaiverExample.world (Ok WaiverExample.league)
      1 2 300 21 None empty_state = (Ok r, s')
    /\ WaiverExample.summary r
       = [(Some 101, Some 1, (800 # 100)%Q); (Some 102, Some 1, (100 # 100)%Q)].
Proof. eexists _, _. split; vm_compute; reflexivity. Qed.

(** C4 at a limit of 0: the loop tests the limit only after it has handled a
    free agent, so one recommendation is returned where the limit allows
    none. *)
Theorem limit_zero_returns_one_recommendation :
  exists r s',
    waiver_recommendations WaiverExample.world (Ok WaiverExample.league)
      1 0 300 21 None empty_state = (Ok r, s')
    /\ WaiverExample.summary r = [(Some 101, Some 1, (800 # 100)%Q)]
    /\ ~ (Z.of_nat (length (recommendations_of r)) <= 0).
Proof.
  eexists _, _. split; [vm_compute; reflexivity|].
  split; [vm_compute; reflexivity|]. vm_compute. intros H. now apply H.
Qed.

(** ** The theorems at concrete inputs *)

Lemma no_schedule_not_parsable w team :
  ~ has_parsable_date w (Witness.no_schedule team).
Proof. intros (sched & g & H & _). discriminate. Defined.

(** C1 at work: a second call a minute after a successful refresh returns
    the cached mapping and leaves the state alone; after a failed refresh
    every call refreshes. *)
Lemma get_counts_caching_witness :
  get_team_games_cache (Examples.season (Examples.t0 + 60 * US_PER_SECOND)) 7 900
    Witness.after_season_refresh
  = (Ok (cache_counts (cache Witness.after_season_refresh)),
     Witness.after_season_refresh)
  /\ exists s1,
       get_team_games_cache (Examples.offline Examples.t0) 7 900 empty_state
       = (Ok ∅, s1)
       /\ exists r s2 l,
            get_team_games_cache (Examples.offline (Examples.t0 + 1)) 7 900 s1
            = (r, s2)
            /\ log s2 = (log s1 ++ EvRefresh 7 :: l)%list.
Proof.
  split.
  - apply (proj1 (get_counts_caching
                    (Examples.season (Examples.t0 + 60 * US_PER_SECOND)) 7 900
                    Witness.after_season_refresh)).
    + vm_compute. reflexivity.
    + vm_compute. reflexivity.
    + intros H. apply (f_equal (fun m : gmap string Z => m !! "LAL")) in H.
      vm_compute in H. discriminate H.
  - destruct (proj2 (get_counts_caching (Examples.offline Examples.t0) 7 900
                       empty_state)
                (URLError "<urlopen error timed out>") Witness.after_failed_refresh)
      as (s1 & H1 & _ & _ & _ & _ & _ & H2).
    + vm_compute. reflexivity.
    + vm_compute. reflexivity.
    + exists s1. split; [exact H1|].
      apply (H2 (Examples.offline (Examples.t0 + 1)) 7 900).
Defined.

(** C2 at work, on the examples of the specification: rate 10 and no game in
    a parsable schedule give 0; rate 10 and no game with no schedule and an
    empty cache give 10; rate 10 and three games give 30. *)
Lemma three_way_projection_witness :
  (exists s', projected_points_next_n_days (Examples.season Examples.t0)
                Witness.bye_week 7 empty_state = (Ok 0%Q, s'))
  /\ (exists s', projected_points_next_n_days (Examples.offline Examples.t0)
                   (Witness.no_schedule "GSW") 7 empty_state = (Ok 10%Q, s'))
  /\ (exists s', projected_points_next_n_days (Examples.season Examples.t0)
                   Witness.three_games 7 empty_state = (Ok 30%Q, s')).
Proof.
  split; [|split].
  - destruct (three_way_projection (Examples.season Examples.t0) Witness.bye_week 7
                empty_state) as (_ & _ & H & _).
    destruct H as (g & v & s' & Hg & Hv & H0 & _ & _); [left; reflexivity|].
    vm_compute in Hg. injection Hg as <- _.
    exists s'. rewrite Hv. rewrite H0; [reflexivity | reflexivity |].
    eexists _, _. split; [reflexivity|]. split; [left; reflexivity|].
    vm_compute. eauto.
  - destruct (three_way_projection (Examples.offline Examples.t0)
                (Witness.no_schedule "GSW") 7 empty_state) as (_ & _ & H & _).
    destruct H as (g & v & s' & Hg & Hv & _ & H1 & _);
      [right; apply no_schedule_not_parsable|].
    vm_compute in Hg. injection Hg as <- _.
    exists s'. rewrite Hv. rewrite H1; [reflexivity | | lia].
    intros [_ H]. exact (no_schedule_not_parsable _ _ H).
  - destruct (three_way_projection (Examples.season Examples.t0) Witness.three_games 7
                empty_state) as (_ & _ & H & _).
    destruct H as (g & v & s' & Hg & Hv & _ & _ & H2); [left; reflexivity|].
    vm_compute in Hg. injection Hg as <- _.
    exists s'. rewrite Hv. rewrite H2; [vm_compute; reflexivity | | lia].
    intros [H _]. discriminate H.
Defined.

(** C3 at work: of five entries, one does not parse, one starts a second
    after the window closes, and the three others count, the two on the
    boundaries included; a schedule whose only game is outside the window
    gives 0 although the cache knows eight games for the team; and a window
    of 3000000 days makes the resolver raise. *)
Lemma tier1_exclusive_inclusive_window_witness :
  games_next_n_days (Examples.season Examples.t0) Witness.three_games 7 empty_state
  = (Ok 3, empty_state)
  /\ games_next_n_days (Examples.season Examples.t0) Witness.bye_week 7
       Witness.after_season_refresh
     = (Ok 0, Witness.after_season_refresh)
  /\ exists msg,
       games_next_n_days (Examples.season Examples.t0) Witness.three_games 3000000
         empty_state
       = (Raise (PyError "OverflowError" msg), empty_state).
Proof.
  split; [|split].
  - refine (eq_trans (proj1 (tier1_exclusive_inclusive_window
                               (Examples.season Examples.t0) Witness.three_games 7
                               empty_state _ eq_refl _) eq_refl) _).
    + eexists. split; [left; reflexivity|]. vm_compute. eauto.
    + vm_compute. reflexivity.
  - refine (eq_trans (proj1 (tier1_exclusive_inclusive_window
                               (Examples.season Examples.t0) Witness.bye_week 7
                               Witness.after_season_refresh _ eq_refl _) eq_refl) _).
    + eexists. split; [left; reflexivity|]. vm_compute. eauto.
    + vm_compute. reflexivity.
  - refine (proj1 (proj2 (tier1_exclusive_inclusive_window
                            (Examples.season Examples.t0) Witness.three_games 3000000
                            empty_state _ eq_refl _)) eq_refl).
    eexists. split; [left; reflexivity|]. vm_compute. eauto.
Defined.

(** C5 at work, on the example of the specification: counts 5 and 7 and a
    team missing from the cache give 6. *)
Lemma league_average_estimate_witness :
  games_next_n_days (Examples.season (Examples.t0 + 60 * US_PER_SECOND))
    (Witness.no_schedule "CHI") 7 Witness.two_teams
  = (Ok 6, Witness.two_teams).
Proof.
  destruct (league_average_estimate
              (Examples.season (Examples.t0 + 60 * US_PER_SECOND))
              (Witness.no_schedule "CHI") 7 Witness.two_teams "CHI"
              {[ "ATL" := 5; "BOS" := 7 ]} Witness.two_teams)
    as (r & Hr & Hround & _ & _).
  - apply no_schedule_not_parsable.
  - reflexivity.
  - vm_compute. reflexivity.
  - vm_compute. reflexivity.
  - intros H. apply (f_equal (fun m : gmap string Z => m !! "ATL")) in H.
    vm_compute in H. discriminate H.
  - rewrite Hr, Hround. vm_compute. reflexivity.
Defined.


(** C7 at work: with the scoreboard unreachable the refresh raises, the call
    of the cache returns the empty mapping and the resolver returns 0. *)
Lemma resolution_raises_only_on_overflow_witness :
  (exists s1, get_team_games_cache (Examples.offline Examples.t0) 7 DEFAULT_TTL
                empty_state = (Ok ∅, s1)
              /\ cache_last_error (cache s1)
                 = Some "URLError: <urlopen error timed out>")
  /\ exists s2, games_next_n_days (Examples.offline Examples.t0)
                  (Witness.no_schedule "LAL") 7 empty_state = (Ok 0, s2).
Proof.
  destruct (proj2 (proj2 (proj2 (resolution_raises_only_on_overflow
                                   (Examples.offline Examples.t0)
                                   (Witness.no_schedule "LAL") 7 empty_state)))
              DEFAULT_TTL (URLError "<urlopen error timed out>")
              Witness.after_failed_refresh)
    as (s1 & prefix & H1 & _ & H2 & H3).
  - vm_compute. reflexivity.
  - vm_compute. reflexivity.
  - split.
    + exists s1. split; [exact H1|].
      clear -H1. vm_compute in H1. injection H1 as <-. vm_compute. reflexivity.
    + apply H3; [reflexivity | apply no_schedule_not_parsable].
Defined.

(** C8 at work: from the initial cache, a player with a rate of 10. *)
Lemma nonnegative_outputs_witness :
  exists g v,
    0 <= g /\ (0 <= v)%Q
    /\ exists s', projected_points_next_n_days (Examples.season Examples.t0)
                    (Witness.no_schedule "GS") 7 empty_state = (Ok v, s').
Proof.
  destruct (nonnegative_outputs (Examples.season Examples.t0)
              (Witness.no_schedule "GS") 7 empty_state reachable_initial)
    as (_ & _ & H).
  destruct H as (g & v & s' & _ & Hv & Hg & Hq);
    [right; apply no_schedule_not_parsable|].
  exists g, v. split; [exact Hg|]. split; [|eauto].
  apply Hq. vm_compute. discriminate.
Defined.


(** C10 at work: after a refresh in the season the Lakers, found in the
    mapping, get their 8 games, and Chicago, missing from it, gets the
    estimate 7, the mean of 8, 8 and 4 rounded. *)
Lemma cache_values_positive_witness :
  games_next_n_days (Examples.season Examples.t0) (Witness.no_schedule "LAL") 7
    empty_state = (Ok 8, Witness.after_season_refresh)
  /\ games_next_n_days (Examples.season Examples.t0) (Witness.no_schedule "CHI") 7
       empty_state = (Ok 7, Witness.after_season_refresh).
Proof.
  assert (Hget : get_team_games_cache (Examples.season Examples.t0) 7 DEFAULT_TTL
                   empty_state
                 = (Ok (cache_counts (cache Witness.after_season_refresh)),
                    Witness.after_season_refresh))
    by (vm_compute; reflexivity).
  split.
  - apply (proj1 (proj2 (cache_values_positive (Examples.season Examples.t0)
                           (Witness.no_schedule "LAL") 7 empty_state _ _ "LAL"
                           reachable_initial Hget
                           (no_schedule_not_parsable _ _) eq_refl)) 8).
    vm_compute. reflexivity.
  - destruct (proj1 (proj2 (proj2 (cache_values_positive (Examples.season Examples.t0)
                           (Witness.no_schedule "CHI") 7 empty_state _ _ "CHI"
                           reachable_initial Hget
                           (no_schedule_not_parsable _ _) eq_refl))))
      as (r & Hr & Hround & _).
    + vm_compute. reflexivity.
    + intros H. apply (f_equal (fun m : gmap string Z => m !! "LAL")) in H.
      vm_compute in H. discriminate H.
    + rewrite Hr, Hround. vm_compute. reflexivity.
Defined.



(** * Further properties of the code *)

(** ** Texts *)

Lemma lstrip_all_spaces s : all_spaces s = true -> Str.lstrip s = "".
Proof.
  induction s as [|c r IH]; simpl; [reflexivity|].
  intros H. apply andb_true_iff in H as [Hc Hr]. rewrite Hc. now apply IH.
Qed.

Lemma rstrip_all_spaces s : all_spaces s = true -> Str.rstrip s = "".
Proof.
  induction s as [|c r IH]; simpl; [reflexivity|].
  intros H. apply andb_true_iff in H as [Hc Hr]. rewrite (IH Hr). now rewrite Hc.
Qed.

Lemma lstrip_pad pre u : all_spaces pre = true -> Str.lstrip (pre ++ u) = Str.lstrip u.
Proof.
  induction pre as [|c r IH]; simpl; [reflexivity|].
  intros H. apply andb_true_iff in H as [Hc Hr]. rewrite Hc. now apply IH.
Qed.

Lemma rstrip_pad t post : all_spaces post = true -> Str.rstrip (t ++ post) = Str.rstrip t.
Proof.
  intros H. induction t as [|c r IH]; simpl.
  - now apply rstrip_all_spaces.
  - now rewrite IH.
Qed.

Lemma lstrip_starts_clean t : starts_clean t = true -> Str.lstrip t = t.
Proof.
  destruct t as [|c r]; simpl; [reflexivity|].
  intros H. apply negb_true_iff in H. now rewrite H.
Qed.

Lemma rstrip_no_space t : no_space t = true -> Str.rstrip t = t.
Proof.
  induction t as [|c r IH]; simpl; [reflexivity|].
  intros H. apply andb_true_iff in H as [Hc Hr]. apply negb_true_iff in Hc.
  rewrite (IH Hr). destruct r; [now rewrite Hc | reflexivity].
Qed.

Lemma no_space_starts_clean t : no_space t = true -> starts_clean t = true.
Proof.
  destruct t as [|c r]; simpl; [reflexivity|].
  intros H. now apply andb_true_iff in H as [Hc _].
Qed.

(** White space around a text without white space is stripped. *)
Lemma strip_padded pre t post :
  all_spaces pre = true -> all_spaces post = true -> no_space t = true ->
  Str.strip (pre ++ t ++ post) = t.
Proof.
  intros Hpre Hpost Ht. unfold Str.strip. rewrite (lstrip_pad _ _ Hpre).
  destruct t as [|c r].
  - change (Str.rstrip (Str.lstrip post) = "").
    rewrite (lstrip_all_spaces _ Hpost). reflexivity.
  - rewrite lstrip_starts_clean.
    + rewrite (rstrip_pad _ _ Hpost). now apply rstrip_no_space.
    + simpl. simpl in Ht. now apply andb_true_iff in Ht as [Hc _].
Qed.

Lemma is_space_upper_char c : Str.is_space (Str.upper_char c) = Str.is_space c.
Proof. destruct c as [[] [] [] [] [] [] [] []]; reflexivity. Qed.

Lemma no_space_upper t : no_space (Str.upper t) = no_space t.
Proof.
  induction t as [|c r IH]; simpl; [reflexivity|].
  now rewrite is_space_upper_char, IH.
Qed.

Lemma padded_not_empty pre t post :
  t <> "" -> exists c r, (pre ++ t ++ post)%string = String c r.
Proof.
  intros Ht. destruct pre as [|c r]; simpl; [|eauto].
  destruct t as [|c r]; [contradiction|]. simpl. eauto.
Qed.

(** ** The normalizer *)

(** What holds of each canonical code, and of each alias. *)
Lemma vocabulary_checked :
  forallb (fun c => String.eqb (dict_get TEAM_ABBREV_NORMALIZE c c) c
                    && is_nba_team c && no_space c && negb (String.eqb c "")
                    && String.eqb (Str.upper c) c)
          NBA_TEAM_ABBREVS = true.
Proof. vm_compute. reflexivity. Qed.

Lemma aliases_checked :
  forallb (fun kv : string * string =>
             String.eqb (dict_get TEAM_ABBREV_NORMALIZE kv.1 kv.1) kv.2
             && is_nba_team kv.2 && no_space kv.1 && negb (String.eqb kv.1 ""))
          TEAM_ABBREV_NORMALIZE = true.
Proof. vm_compute. reflexivity. Qed.

Lemma canonical_facts c :
  In c NBA_TEAM_ABBREVS ->
  dict_get TEAM_ABBREV_NORMALIZE c c = c /\ is_nba_team c = true
  /\ no_space c = true /\ c <> "" /\ Str.upper c = c.
Proof.
  intros Hin. pose proof vocabulary_checked as H.
  rewrite forallb_forall in H. specialize (H c Hin).
  rewrite !andb_true_iff in H. destruct H as [[[[H1 H2] H3] H4] H5].
  apply String.eqb_eq in H1, H5. apply negb_true_iff, String.eqb_neq in H4.
  auto.
Qed.

Lemma normalize_of_upper s a :
  s <> "" -> Str.upper (Str.strip s) = a ->
  normalize_team_abbrev (Some s)
  = let a' := dict_get TEAM_ABBREV_NORMALIZE a a in
    if is_nba_team a' then Some a' else None.
Proof.
  intros Hs <-. unfold normalize_team_abbrev. destruct s; [contradiction|reflexivity].
Qed.

(** A canonical code written in any case and surrounded by white space
    normalizes to itself, and an alias written so normalizes to the code
    the table gives for it. *)
Theorem normalize_accepts_padded_mixed_case pre t post :
  all_spaces pre = true ->
  all_spaces post = true ->
  (forall c, In c NBA_TEAM_ABBREVS -> Str.upper t = c ->
     normalize_team_abbrev (Some (pre ++ t ++ post)%string) = Some c)
  /\ (forall k v, In (k, v) TEAM_ABBREV_NORMALIZE -> Str.upper t = k ->
        normalize_team_abbrev (Some (pre ++ t ++ post)%string) = Some v
        /\ In v NBA_TEAM_ABBREVS).
Proof.
  intros Hpre Hpost. split.
  - intros c Hc Hup. destruct (canonical_facts c Hc) as (Hd & Hn & Hns & Hne & _).
    assert (Ht : no_space t = true) by (now rewrite <- no_space_upper, Hup).
    assert (Hte : t <> "") by (intros ->; simpl in Hup; congruence).
    destruct (padded_not_empty pre t post Hte) as (c0 & r0 & E).
    rewrite (normalize_of_upper _ c).
    + cbv zeta. now rewrite Hd, Hn.
    + rewrite E. discriminate.
    + now rewrite (strip_padded _ _ _ Hpre Hpost Ht).
  - intros k v Hkv Hup. pose proof aliases_checked as H.
    rewrite forallb_forall in H. specialize (H (k, v) Hkv). cbn [fst snd] in H.
    rewrite !andb_true_iff in H. destruct H as [[[H1 H2] H3] H4].
    apply String.eqb_eq in H1. apply negb_true_iff, String.eqb_neq in H4.
    assert (Ht : no_space t = true) by (now rewrite <- no_space_upper, Hup).
    assert (Hte : t <> "") by (intros ->; simpl in Hup; congruence).
    destruct (padded_not_empty pre t post Hte) as (c0 & r0 & E).
    split; [|now apply is_nba_team_In].
    rewrite (normalize_of_upper _ k).
    + cbv zeta. now rewrite H1, H2.
    + rewrite E. discriminate.
    + now rewrite (strip_padded _ _ _ Hpre Hpost Ht).
Qed.

(** Normalizing twice is normalizing once, and what the normalizer returns
    is one of the 30 canonical codes. *)
Theorem normalize_idempotent x :
  normalize_team_abbrev (normalize_team_abbrev x) = normalize_team_abbrev x
  /\ (forall k, normalize_team_abbrev x = Some k -> In k NBA_TEAM_ABBREVS).
Proof.
  assert (Hcan : forall k, normalize_team_abbrev x = Some k -> In k NBA_TEAM_ABBREVS).
  { intros k Hk. apply is_nba_team_In. eapply normalize_team_abbrev_canonical, Hk. }
  split; [|exact Hcan].
  destruct (normalize_team_abbrev x) as [k|] eqn:E; [|reflexivity].
  destruct (canonical_facts k (Hcan k eq_refl)) as (Hd & Hn & Hns & Hne & Hup).
  rewrite (normalize_of_upper k k Hne).
  - cbv zeta. now rewrite Hd, Hn.
  - unfold Str.strip. rewrite lstrip_starts_clean by now apply no_space_starts_clean.
    now rewrite rstrip_no_space.
Qed.

(** ** Availability *)

(** A player without an injury status is available; a status that reads OUT
    or SUSPENSION in any case, with white space around it, makes the player
    unavailable. *)
Theorem unavailable_ignores_case_and_padding p :
  (injuryStatus p = None -> is_unavailable p = false)
  /\ (forall pre t post,
        injuryStatus p = Some (pre ++ t ++ post)%string ->
        all_spaces pre = true -> all_spaces post = true ->
        Str.upper t = "OUT" \/ Str.upper t = "SUSPENSION" ->
        is_unavailable p = true).
Proof.
  unfold is_unavailable. split.
  - intros ->. reflexivity.
  - intros pre t post -> Hpre Hpost Hup. cbn [from_option id].
    assert (Ht : no_space t = true)
      by (rewrite <- no_space_upper; destruct Hup as [-> | ->]; reflexivity).
    rewrite (strip_padded _ _ _ Hpre Hpost Ht).
    destruct Hup as [-> | ->]; reflexivity.
Qed.

Lemma unavailable_ignores_case_and_padding_witness :
  is_unavailable (Examples.player 5 "LAL" 12 SchedNone) = false
  /\ is_unavailable
       {| playerId := Some 6; player_id := None; id_ := None; espn_id := None;
          name := None; position := None; proTeam := Some "LAL";
          injuryStatus := Some "  Suspension "; avg_points := None;
          projected_avg_points := AttrNone; schedule := SchedNone |} = true.
Proof.
  split; [reflexivity|].
  apply (proj2 (unavailable_ignores_case_and_padding _) "  " "Suspension" " ");
    [reflexivity | reflexivity | reflexivity | right; reflexivity].
Defined.

(** ** Schedule entries *)

Lemma append_cons a r s : (String a r ++ s)%string = String a (r ++ s).
Proof. reflexivity. Qed.

Lemma append_last_assoc x y c :
  (x ++ (y ++ String c ""))%string = ((x ++ y) ++ String c "")%string.
Proof.
  induction x as [|a r IH]; [reflexivity|].
  rewrite !append_cons. now f_equal.
Qed.

Lemma append_last_not_empty x c : (x ++ String c "")%string <> "".
Proof. destruct x; discriminate. Qed.

Lemma rstrip_append_last x c :
  Str.is_space c = false -> Str.rstrip (x ++ String c "") = (x ++ String c "")%string.
Proof.
  intros Hc. induction x as [|a r IH].
  - simpl. now rewrite Hc.
  - rewrite append_cons. cbn [Str.rstrip]. rewrite IH.
    destruct (r ++ String c "")%string eqn:E; [|reflexivity].
    now apply append_last_not_empty in E.
Qed.

Lemma strip_append_last x c :
  starts_clean x = true -> Str.is_space c = false ->
  Str.strip (x ++ String c "") = (x ++ String c "")%string.
Proof.
  intros Hx Hc. unfold Str.strip. rewrite lstrip_starts_clean.
  - now apply rstrip_append_last.
  - destruct x as [|a r]; simpl; [now rewrite Hc | exact Hx].
Qed.

Lemma ends_with_Z_append_last x c :
  Str.ends_with_Z (x ++ String c "") = Ascii.eqb c "Z".
Proof.
  induction x as [|a r IH]; [reflexivity|].
  rewrite append_cons. cbn [Str.ends_with_Z].
  destruct (r ++ String c "")%string eqn:E; [|exact IH].
  now apply append_last_not_empty in E.
Qed.

Lemma drop_last_append_last x c : Str.drop_last (x ++ String c "") = x.
Proof.
  induction x as [|a r IH]; [reflexivity|].
  rewrite append_cons. cbn [Str.drop_last].
  destruct (r ++ String c "")%string eqn:E; [|now rewrite IH].
  now apply append_last_not_empty in E.
Qed.

(** A date written with the suffix Z parses to the instant of the same text
    written with the offset +00:00, whatever alias carries it. *)
Theorem z_suffix_reads_as_utc_offset w g1 g2 x :
  starts_clean x = true ->
  first_truthy [g_date g1; g_startDate g1; g_startTime g1; g_gameDate g1; g_gameTime g1]
  = Some (x ++ "Z")%string ->
  first_truthy [g_date g2; g_startDate g2; g_startTime g2; g_gameDate g2; g_gameTime g2]
  = Some (x ++ "+00:00")%string ->
  _parse_game_datetime w g1 = _parse_game_datetime w g2.
Proof.
  intros Hx H1 H2. unfold _parse_game_datetime. rewrite H1, H2.
  rewrite (strip_append_last x "Z" Hx eq_refl).
  rewrite ends_with_Z_append_last, drop_last_append_last. cbn [Ascii.eqb].
  change (x ++ "+00:00")%string with (x ++ ("+00:0" ++ "0"))%string.
  rewrite append_last_assoc.
  rewrite (strip_append_last _ "0"); [|destruct x; [reflexivity | exact Hx] | reflexivity].
  rewrite ends_with_Z_append_last. reflexivity.
Qed.

Lemma z_suffix_reads_as_utc_offset_witness :
  _parse_game_datetime (Examples.season Examples.t0)
    (Examples.game_at "2026-11-05T01:00:00Z")
  = _parse_game_datetime (Examples.season Examples.t0)
      {| g_date := None; g_startDate := Some ""; g_startTime := None;
         g_gameDate := Some "2026-11-05T01:00:00+00:00"; g_gameTime := None |}.
Proof.
  apply (z_suffix_reads_as_utc_offset _ _ _ "2026-11-05T01:00:00");
    reflexivity.
Defined.

(** ** Counting a player's own schedule *)

Lemma filter_length_mono {A} (f g : A -> bool) (l : list A) :
  (forall x, f x = true -> g x = true) ->
  (length (List.filter f l) <= length (List.filter g l))%nat.
Proof.
  intros Hfg. induction l as [|x l IH]; simpl; [lia|].
  destruct (f x) eqn:Ef.
  - rewrite (Hfg x Ef). simpl. lia.
  - destruct (g x); simpl; lia.
Qed.

(** For windows that end at an instant [datetime] can hold, the count from
    the player's own schedule is returned: it is never negative, never more
    than the number of entries, does not shrink when the window grows, and
    is 0 for a window that ends before now. *)
Theorem schedule_count_grows_with_window w p days1 days2 :
  days1 <= days2 ->
  window_ok w days1 = true ->
  window_ok w days2 = true ->
  exists g1 g2,
    games_next_n_days_from_player_schedule w p days1 = Ok g1
    /\ games_next_n_days_from_player_schedule w p days2 = Ok g2
    /\ 0 <= g1
    /\ g1 <= g2
    /\ (forall sched, schedule p = SchedList sched -> g2 <= Z.of_nat (length sched))
    /\ (days1 < 0 -> g1 = 0).
Proof.
  intros Hd H1 H2.
  exists (count_in_window w days1 p), (count_in_window w days2 p).
  split; [now apply games_from_schedule_run|].
  split; [now apply games_from_schedule_run|].
  split; [apply count_in_window_nonneg|].
  unfold count_in_window. destruct (schedule p) as [|sched|] eqn:E.
  - repeat split; try lia; discriminate.
  - split; [|split].
    + apply inj_le, filter_length_mono. intros g. rewrite !in_window_spec.
      intros (t & Ht & Hw). exists t. split; [assumption|].
      unfold US_PER_DAY, US_PER_SECOND in *. lia.
    + intros sched' [= <-]. apply inj_le, List.filter_length_le.
    + intros Hneg. clear E.
      replace (List.filter (in_window w days1) sched) with (@nil Game); [reflexivity|].
      symmetry. induction sched as [|g l IH]; simpl; [reflexivity|].
      destruct (in_window w days1 g) eqn:Eg; [|apply IH].
      apply in_window_spec in Eg as (t & _ & Hw).
      unfold US_PER_DAY, US_PER_SECOND in Hw. lia.
  - repeat split; try lia; discriminate.
Qed.

Lemma schedule_count_grows_with_window_witness :
  exists g1 g2,
    games_next_n_days_from_player_schedule (Examples.season Examples.t0)
      Witness.three_games 3 = Ok g1
    /\ games_next_n_days_from_player_schedule (Examples.season Examples.t0)
         Witness.three_games 7 = Ok g2
    /\ g1 <= g2.
Proof.
  destruct (schedule_count_grows_with_window (Examples.season Examples.t0)
              Witness.three_games 3 7) as (g1 & g2 & E1 & E2 & _ & Hle & _).
  - lia.
  - reflexivity.
  - reflexivity.
  - exists g1, g2. auto.
Defined.

(** ** The refresh: which days it queries *)

Lemma compute_loop_log w ds : forall counts s,
  exists n,
    (n <= length ds)%nat
    /\ (compute_loop w ds counts s).2
       = {| cache := cache s; log := (log s ++ (EvFetch <$> take n ds))%list |}
    /\ (forall m, (compute_loop w ds counts s).1 = Ok m -> n = length ds).
Proof.
  induction ds as [|d ds IH]; intros counts s.
  - exists 0%nat. simpl. unfold ret. simpl. rewrite app_nil_r.
    split; [lia|]. split; [now destruct s | reflexivity].
  - simpl compute_loop. unfold _fetch_espn_nba_scoreboard_for_date. munfold.
    destruct (scoreboard w d) as [data|e]; simpl.
    + destruct (count_scoreboard counts data) as [counts'|e]; simpl.
      * destruct (IH counts' {| cache := cache s; log := (log s ++ [EvFetch d])%list |})
          as (n & Hn & Hlog & Hok).
        exists (S n). split; [simpl; lia|]. rewrite Hlog. simpl.
        rewrite <- app_assoc. split; [reflexivity|].
        intros m Hm. simpl. f_equal. exact (Hok m Hm).
      * exists 1%nat. simpl. split; [lia|].
        split; [reflexivity | discriminate].
    + exists 1%nat. simpl. split; [lia|].
      split; [reflexivity | discriminate].
Qed.

(** The events of a refresh: the refresh itself, then queries for the first
    days of the window, all of them when the refresh succeeds. *)
Lemma refresh_events_shape w days :
  exists n,
    (n <= length (window_days w days))%nat
    /\ refresh_events w days
       = EvRefresh days :: (EvFetch <$> take n (window_days w days))
    /\ (forall m, refresh_outcome w days = Ok m -> n = length (window_days w days)).
Proof.
  unfold refresh_events, refresh_outcome, _compute_team_games_next_n_days. munfold.
  simpl.
  destruct (compute_loop_log w (window_days w days) ∅
              {| cache := initial_cache; log := [EvRefresh days] |})
    as (n & Hn & Hlog & Hok).
  exists n. split; [assumption|].
  destruct (compute_loop w (window_days w days) ∅ _) as [[c|e] s1] eqn:E;
    simpl in *; subst s1; simpl.
  - split; [reflexivity|]. intros m _. now apply (Hok c).
  - split; [reflexivity | discriminate].
Qed.

Lemma window_days_length w days :
  length (window_days w days) = Z.to_nat (days + 1).
Proof. unfold window_days. now rewrite length_fmap, length_seqZ. Qed.

Lemma window_days_lookup w days i :
  (i < Z.to_nat (days + 1))%nat ->
  window_days w days !! i = Some (clock w `div` US_PER_DAY + Z.of_nat i).
Proof.
  intros Hi. unfold window_days. rewrite list_lookup_fmap.
  rewrite lookup_seqZ_lt by lia. reflexivity.
Qed.

(** Whether a document makes the aggregation raise, and what, does not
    depend on the counts collected so far. *)
Lemma fold_result_raise {A B} (f : B -> A -> result B) (l : list A) :
  (forall x b b' e, f b x = Raise e -> f b' x = Raise e) ->
  forall b b' e, fold_result f l b = Raise e -> fold_result f l b' = Raise e.
Proof.
  intros Hf. induction l as [|x l IH]; intros b b' e; simpl; [discriminate|].
  unfold rbind. destruct (f b x) as [b1|e1] eqn:E1.
  - destruct (f b' x) as [b2|e2] eqn:E2; [apply IH|].
    rewrite (Hf x b' b e2 E2) in E1. discriminate.
  - intros [= <-]. now rewrite (Hf x b b' e1 E1).
Qed.

Lemma count_competitor_raise counts counts' c e :
  count_competitor counts c = Raise e -> count_competitor counts' c = Raise e.
Proof.
  unfold count_competitor, rbind.
  destruct (py_get c "team" (JDict [])) as [team|e1]; [|trivial].
  destruct (py_get (py_or team (JDict [])) "abbreviation" JNull) as [a|e2]; [|trivial].
  destruct (normalize_json a); discriminate.
Qed.

Lemma count_event_raise counts counts' ev e :
  count_event counts ev = Raise e -> count_event counts' ev = Raise e.
Proof.
  unfold count_event, rbind.
  destruct (py_get ev "competitions" (JList [])) as [comps|e1]; [|trivial].
  destruct (negb (truthy (py_or comps (JList [])))); [discriminate|].
  destruct (py_index0 (py_or comps (JList []))) as [comp0|e2]; [|trivial].
  destruct (py_get comp0 "competitors" (JList [])) as [competitors|e3]; [|trivial].
  destruct (py_iter (py_or competitors (JList []))) as [cs|e4]; [|trivial].
  apply fold_result_raise. intros x b b' e'. apply count_competitor_raise.
Qed.

Lemma count_scoreboard_raise counts counts' data e :
  count_scoreboard counts data = Raise e -> count_scoreboard counts' data = Raise e.
Proof.
  unfold count_scoreboard, rbind.
  destruct (py_get data "events" (JList [])) as [events|e1]; [|trivial].
  destruct (py_iter (py_or events (JList []))) as [evs|e2]; [|trivial].
  apply fold_result_raise. intros x b b' e'. apply count_event_raise.
Qed.

Lemma day_failure_counted w d data counts c :
  scoreboard w d = Ok data -> count_scoreboard counts data = Ok c ->
  day_failure w d = None.
Proof.
  intros Es Ec. unfold day_failure. rewrite Es.
  destruct (count_scoreboard ∅ data) as [c0|e] eqn:E; [reflexivity|].
  apply (count_scoreboard_raise ∅ counts) in E. congruence.
Qed.

Lemma day_failure_not_counted w d data counts e :
  scoreboard w d = Ok data -> count_scoreboard counts data = Raise e ->
  day_failure w d = Some e.
Proof.
  intros Es Ec. unfold day_failure. rewrite Es.
  now rewrite (count_scoreboard_raise counts ∅ data e Ec).
Qed.

(** The loop queries the days in order up to the first one that fails. *)
Lemma compute_loop_failure w ds : forall counts s,
  exists n,
    (n <= length ds)%nat
    /\ (compute_loop w ds counts s).2
       = {| cache := cache s; log := (log s ++ (EvFetch <$> take n ds))%list |}
    /\ (forall i d, (S i < n)%nat -> ds !! i = Some d -> day_failure w d = None)
    /\ match (compute_loop w ds counts s).1 with
       | Ok _ =>
           n = length ds
           /\ forall i d, ds !! i = Some d -> day_failure w d = None
       | Raise e =>
           (0 < n)%nat
           /\ exists d, ds !! (n - 1)%nat = Some d /\ day_failure w d = Some e
       end.
Proof.
  induction ds as [|d ds IH]; intros counts s.
  - exists 0%nat. simpl. unfold ret. simpl. rewrite app_nil_r.
    split; [lia|]. split; [now destruct s|]. split; [intros i d; lia|].
    split; [reflexivity | intros i d; discriminate].
  - simpl compute_loop. unfold _fetch_espn_nba_scoreboard_for_date. munfold.
    destruct (scoreboard w d) as [data|e] eqn:Es; simpl.
    + destruct (count_scoreboard counts data) as [counts'|e] eqn:Ec; simpl.
      * destruct (IH counts' {| cache := cache s; log := (log s ++ [EvFetch d])%list |})
          as (n & Hn & Hlog & Hbefore & Hout).
        pose proof (day_failure_counted w d data counts counts' Es Ec) as Hd.
        exists (S n). split; [simpl; lia|]. rewrite Hlog. simpl.
        rewrite <- app_assoc. split; [reflexivity|]. split.
        -- intros [|i] d' Hi Hd'; simpl in Hd'.
           ++ now injection Hd' as <-.
           ++ apply (Hbefore i d'); [lia | exact Hd'].
        -- destruct (compute_loop w ds counts' _) as [[c|e] s1]; simpl in *.
           ++ destruct Hout as [-> Hall]. split; [reflexivity|].
              intros [|i] d' Hd'; simpl in Hd'.
              ** now injection Hd' as <-.
              ** now apply (Hall i d').
           ++ destruct Hout as (Hpos & d' & Hd' & Hfail). split; [lia|].
              exists d'. split; [|exact Hfail].
              rewrite Nat.sub_0_r. destruct n as [|n]; [lia|].
              simpl in Hd'. rewrite Nat.sub_0_r in Hd'. exact Hd'.
      * exists 1%nat. simpl. split; [lia|]. split; [reflexivity|].
        split; [intros i d'; lia|]. split; [lia|].
        exists d. split; [reflexivity|].
        exact (day_failure_not_counted w d data counts e Es Ec).
    + exists 1%nat. simpl. split; [lia|]. split; [reflexivity|].
      split; [intros i d'; lia|]. split; [lia|].
      exists d. split; [reflexivity|]. unfold day_failure. now rewrite Es.
Qed.

(** A refresh for a window of [days] days that stays in the calendar
    queries the scoreboard for today, tomorrow and so on, in that order and
    one query per day, up to the first day that fails, if one does: the day
    whose query raises or whose document cannot be aggregated.  The refresh
    raises what that day raised, and no later day is queried.  When no day
    fails the refresh succeeds with [days + 1] queries, or none for a
    negative window. *)
Theorem refresh_queries_consecutive_days w days :
  days_in_calendar w days = true ->
  let today := clock w `div` US_PER_DAY in
  exists n,
    (n <= Z.to_nat (days + 1))%nat
    /\ refresh_events w days
       = EvRefresh days :: ((fun i => EvFetch (today + Z.of_nat i)) <$> seq 0 n)
    /\ (forall i, (S i < n)%nat -> day_failure w (today + Z.of_nat i) = None)
    /\ match refresh_outcome w days with
       | Ok _ =>
           n = Z.to_nat (days + 1)
           /\ forall i, (i < n)%nat -> day_failure w (today + Z.of_nat i) = None
       | Raise e =>
           (0 < n)%nat /\ day_failure w (today + Z.of_nat (n - 1)) = Some e
       end
    /\ (days < 0 -> refresh_outcome w days = Ok ∅ /\ n = 0%nat).
Proof.
  intros _ today.
  destruct (compute_loop_failure w (window_days w days) ∅
              {| cache := initial_cache; log := [EvRefresh days] |})
    as (n & Hn & Hlog & Hbefore & Hout).
  rewrite window_days_length in Hn.
  assert (Hev : refresh_events w days
                = EvRefresh days :: (EvFetch <$> take n (window_days w days))).
  { unfold refresh_events, _compute_team_games_next_n_days. munfold. simpl.
    destruct (compute_loop w (window_days w days) ∅ _) as [[c|e] s1];
      simpl in *; subst s1; reflexivity. }
  assert (Hres : refresh_outcome w days
                 = match (compute_loop w (window_days w days) ∅
                            {| cache := initial_cache; log := [EvRefresh days] |}).1 with
                   | Ok c => Ok (filter (fun kv : string * Z => Is_true (is_nba_team kv.1)) c)
                   | Raise e => Raise e
                   end).
  { unfold refresh_outcome, _compute_team_games_next_n_days. munfold. simpl.
    now destruct (compute_loop w (window_days w days) ∅ _) as [[c|e] s1]. }
  exists n. split; [assumption|]. split; [|split; [|split]].
  - rewrite Hev. f_equal. apply list_eq. intros i.
    rewrite !list_lookup_fmap, lookup_take.
    destruct (decide (i < n)%nat) as [Hi|Hi].
    + rewrite window_days_lookup by lia.
      rewrite lookup_seq_lt by lia. reflexivity.
    + rewrite lookup_seq_ge by lia. reflexivity.
  - intros i Hi. apply (Hbefore i); [exact Hi|].
    apply window_days_lookup. lia.
  - rewrite Hres.
    destruct ((compute_loop w (window_days w days) ∅ _).1) as [c|e].
    + destruct Hout as [Hlen Hall]. rewrite window_days_length in Hlen.
      split; [exact Hlen|]. intros i Hi. apply (Hall i).
      apply window_days_lookup. lia.
    + destruct Hout as (Hpos & d & Hd & Hfail). split; [exact Hpos|].
      rewrite window_days_lookup in Hd by lia. now injection Hd as <-.
  - intros Hneg.
    assert (E : window_days w days = []).
    { apply length_zero_iff_nil. rewrite window_days_length. lia. }
    split; [|lia].
    unfold refresh_outcome, _compute_team_games_next_n_days. munfold.
    rewrite E. simpl. unfold ret. simpl. reflexivity.
Qed.

(** The refresh at work when day 20763 is answered 503: the four days up to
    that one are queried, nothing after, and the refresh raises the 503. *)
Lemma refresh_queries_consecutive_days_witness :
  exists n,
    refresh_events (Examples.outage Examples.t0 20763) 7
    = EvRefresh 7 :: ((fun i => EvFetch (20760 + Z.of_nat i)) <$> seq 0 n)
    /\ day_failure (Examples.outage Examples.t0 20763) (20760 + Z.of_nat (n - 1))
       = Some (HTTPError 503 "HTTP Error 503: Service Unavailable").
Proof.
  destruct (refresh_queries_consecutive_days (Examples.outage Examples.t0 20763) 7
              eq_refl) as (n & _ & Hev & _ & Hout & _).
  assert (E : refresh_outcome (Examples.outage Examples.t0 20763) 7
              = Raise (HTTPError 503 "HTTP Error 503: Service Unavailable"))
    by (vm_compute; reflexivity).
  rewrite E in Hout. destruct Hout as [_ Hfail].
  exists n. split; [exact Hev | exact Hfail].
Defined.

(** ** The refresh: what it counts *)












(** ** The cache across calls *)

Lemma refresh_events_fetches w days :
  exists l, refresh_events w days = EvRefresh days :: l /\ Forall is_fetch l.
Proof.
  destruct (refresh_events_shape w days) as (n & _ & E & _).
  eexists. split; [exact E|]. apply Forall_fmap, Forall_forall. now intros d _.
Qed.

(** A refresh replaces the cache: the mapping returned and the record stored
    depend on the world and the window only, not on what the cache held. *)
Theorem refresh_replaces_cache w days ttl s1 s2 :
  cache_ok (cache s1) (clock w) days ttl = false ->
  cache_ok (cache s2) (clock w) days ttl = false ->
  exists c s1' s2',
    get_team_games_cache w days ttl s1 = (Ok c, s1')
    /\ get_team_games_cache w days ttl s2 = (Ok c, s2')
    /\ cache s1' = cache s2'
    /\ cache_counts (cache s1') = c
    /\ cache_ts (cache s1') = clock w
    /\ cache_days (cache s1') = Some days.
Proof.
  intros H1 H2. rewrite !get_team_games_cache_run. unfold cache_after.
  rewrite H1, H2. eexists _, _, _. split; [reflexivity|]. split; [reflexivity|].
  simpl. split; [reflexivity|]. split; [reflexivity|].
  destruct (refresh_outcome w days) as [c|[]]; split; reflexivity.
Qed.

Lemma refresh_replaces_cache_witness :
  exists c s1' s2',
    get_team_games_cache (Examples.season Examples.t0) 7 900 empty_state = (Ok c, s1')
    /\ get_team_games_cache (Examples.season Examples.t0) 7 900 Witness.after_failed_refresh
       = (Ok c, s2')
    /\ cache s1' = cache s2'.
Proof.
  destruct (refresh_replaces_cache (Examples.season Examples.t0) 7 900 empty_state
              Witness.after_failed_refresh eq_refl eq_refl)
    as (c & s1' & s2' & H1 & H2 & H3 & _).
  exists c, s1', s2'. split; [exact H1|]. split; [exact H2 | exact H3].
Defined.

(** A call that finds another window, an expired timestamp or an empty
    mapping makes exactly one refresh attempt, logged before its queries,
    and stamps the cache with the time and the window of the call. *)
Theorem stale_cache_refreshes_once w days ttl s :
  cache_days (cache s) <> Some days
  \/ ttl * US_PER_SECOND <= clock w - cache_ts (cache s)
  \/ cache_counts (cache s) = ∅ ->
  exists c s' l,
    get_team_games_cache w days ttl s = (Ok c, s')
    /\ log s' = (log s ++ EvRefresh days :: l)%list
    /\ Forall is_fetch l
    /\ cache_ts (cache s') = clock w
    /\ cache_days (cache s') = Some days.
Proof.
  intros Hstale.
  assert (Hok : cache_ok (cache s) (clock w) days ttl = false).
  { apply not_true_iff_false. rewrite cache_ok_true. intros (Hd & Ht & Hc).
    destruct Hstale as [H|[H|H]]; [contradiction | lia | contradiction]. }
  rewrite get_team_games_cache_run. unfold cache_after. rewrite Hok.
  destruct (refresh_events_fetches w days) as (l & -> & Hl).
  eexists _, _, l. split; [reflexivity|]. simpl. split; [reflexivity|].
  split; [assumption|].
  destruct (refresh_outcome w days) as [c|[]]; split; reflexivity.
Qed.

Lemma stale_cache_refreshes_once_witness :
  exists c s' l,
    get_team_games_cache (Examples.season (Examples.t0 + 900 * US_PER_SECOND)) 7 900
      Witness.after_season_refresh = (Ok c, s')
    /\ log s' = (log Witness.after_season_refresh ++ EvRefresh 7 :: l)%list
    /\ Forall is_fetch l.
Proof.
  destruct (stale_cache_refreshes_once
              (Examples.season (Examples.t0 + 900 * US_PER_SECOND)) 7 900
              Witness.after_season_refresh)
    as (c & s' & l & H1 & H2 & H3 & _).
  - right. left. vm_compute. discriminate.
  - exists c, s', l. split; [exact H1|]. split; [exact H2 | exact H3].
Defined.

(** After a refresh that returned a non-empty mapping, every call for the
    same window made less than [ttl_seconds] later returns that mapping and
    changes nothing: no refresh, no query. *)
Theorem second_call_within_ttl_hits w1 w2 days ttl s c s1 :
  cache_ok (cache s) (clock w1) days ttl = false ->
  get_team_games_cache w1 days ttl s = (Ok c, s1) ->
  c <> ∅ ->
  clock w2 - clock w1 < ttl * US_PER_SECOND ->
  get_team_games_cache w2 days ttl s1 = (Ok c, s1).
Proof.
  intros Hok Hget Hc Ht.
  rewrite get_team_games_cache_run in Hget. unfold cache_after in Hget.
  rewrite Hok in Hget. injection Hget as Hcounts Hs1.
  assert (Hts : cache_ts (cache s1) = clock w1 /\ cache_days (cache s1) = Some days).
  { rewrite <- Hs1. simpl. destruct (refresh_outcome w1 days) as [m|[]]; split; reflexivity. }
  assert (Hcs : cache_counts (cache s1) = c) by (rewrite <- Hs1; exact Hcounts).
  destruct Hts as [Hts Hdays].
  rewrite get_team_games_cache_run. unfold cache_after.
  replace (cache_ok (cache s1) (clock w2) days ttl) with true.
  - rewrite Hcs. now destruct s1.
  - symmetry. apply cache_ok_true. rewrite Hts, Hcs. auto.
Qed.

Lemma second_call_within_ttl_hits_witness :
  get_team_games_cache (Examples.offline (Examples.t0 + 899 * US_PER_SECOND)) 7 900
    Witness.after_season_refresh
  = (Ok (cache_counts (cache Witness.after_season_refresh)),
     Witness.after_season_refresh).
Proof.
  apply (second_call_within_ttl_hits (Examples.season Examples.t0) _ 7 900 empty_state).
  - reflexivity.
  - vm_compute. reflexivity.
  - intros H. apply (f_equal (fun m : gmap string Z => m !! "LAL")) in H.
    vm_compute in H. discriminate H.
  - vm_compute. reflexivity.
Defined.

(** In every cache state the program can reach, a non-empty mapping comes
    with no error and the status 200, a recorded error comes with an empty
    mapping, and only the initial cache has no window. *)
Theorem reachable_cache_status c :
  reachable c ->
  (cache_counts c <> ∅ ->
   cache_last_error c = None /\ cache_last_status c = Some 200)
  /\ (is_Some (cache_last_error c) -> cache_counts c = ∅)
  /\ (cache_days c = None -> c = initial_cache).
Proof.
  induction 1 as [|w days ttl s r s' _ IH Hget].
  - split; [intros H; now destruct H|]. split; [intros [e He]; discriminate|].
    reflexivity.
  - rewrite get_team_games_cache_run in Hget. injection Hget as _ <-. simpl.
    unfold cache_after. destruct (cache_ok _ _ _ _); [exact IH|].
    destruct (refresh_outcome w days) as [m|[]]; simpl;
      (split; [intros Hm; try (now destruct Hm); now split|]);
      (split; [intros [e He]; try discriminate; reflexivity | discriminate]).
Qed.

Lemma reachable_cache_status_witness :
  cache_last_error (cache Witness.after_season_refresh) = None
  /\ cache_last_status (cache Witness.after_season_refresh) = Some 200.
Proof.
  apply (proj1 (reachable_cache_status (cache Witness.after_season_refresh)
                  (reachable_call (Examples.season Examples.t0) 7 900 empty_state _ _
                     reachable_initial (surjective_pairing _)))).
  intros H. apply (f_equal (fun m : gmap string Z => m !! "LAL")) in H.
  vm_compute in H. discriminate H.
Defined.

(** ** Packed players *)





(** ** The roster route *)



(** ** The league client and the routes *)

(** [get_nba_league] returns a league only when all four variables are set,
    the two numbers are not 0 and the two texts are not empty, and the league
    is the one the constructor built from exactly these values. *)
Theorem league_needs_complete_env e L :
  get_nba_league e = Ok L ->
  exists id_text year_text league_id year swid s2,
    getenv e "ESPN_LEAGUE_ID" = Some id_text
    /\ int_of_text e id_text = Ok league_id
    /\ getenv e "ESPN_YEAR" = Some year_text
    /\ int_of_text e year_text = Ok year
    /\ getenv e "ESPN_SWID" = Some swid
    /\ getenv e "ESPN_S2" = Some s2
    /\ league_id <> 0 /\ year <> 0 /\ swid <> "" /\ s2 <> ""
    /\ BasketballLeague e league_id year swid s2 = Ok L.
Proof.
  unfold get_nba_league, int_getenv, rbind.
  destruct (getenv e "ESPN_LEAGUE_ID") as [id_text|]; [|discriminate].
  destruct (int_of_text e id_text) as [league_id|] eqn:Ei; [|discriminate].
  destruct (getenv e "ESPN_YEAR") as [year_text|]; [|discriminate].
  destruct (int_of_text e year_text) as [year|] eqn:Ey; [|discriminate].
  destruct (league_id =? 0) eqn:E1; [discriminate|].
  destruct (year =? 0) eqn:E2; [discriminate|].
  destruct (getenv e "ESPN_SWID") as [[|c1 r1]|]; try discriminate.
  destruct (getenv e "ESPN_S2") as [[|c2 r2]|]; try discriminate.
  simpl. intros H. apply Z.eqb_neq in E1, E2.
  exists id_text, year_text, league_id, year, (String c1 r1), (String c2 r2).
  repeat split; try assumption; try reflexivity; discriminate.
Qed.

(** An unset league id or year makes [get_nba_league] fail with the
    [TypeError] of [int(None)], before the check of the variables; a league
    id or year of 0, or an unset or empty SWID or S2, makes it fail with the
    [ValueError] "Missing ESPN env vars"; in none of these cases does the
    result depend on the constructor of the league. *)
Theorem incomplete_env_fails_before_connecting e :
  (getenv e "ESPN_LEAGUE_ID" = None ->
   exists msg, get_nba_league e = Raise (PyError "TypeError" msg))
  /\ (forall league_id,
        int_getenv e "ESPN_LEAGUE_ID" = Ok league_id ->
        getenv e "ESPN_YEAR" = None ->
        exists msg, get_nba_league e = Raise (PyError "TypeError" msg))
  /\ (forall league_id year,
        int_getenv e "ESPN_LEAGUE_ID" = Ok league_id ->
        int_getenv e "ESPN_YEAR" = Ok year ->
        league_id = 0 \/ year = 0
        \/ text_truthy (getenv e "ESPN_SWID") = false
        \/ text_truthy (getenv e "ESPN_S2") = false ->
        get_nba_league e
        = Raise (PyError "ValueError" "Missing ESPN env vars. Check backend/.env")).
Proof.
  split; [|split].
  - intros H. unfold get_nba_league, int_getenv. rewrite H. simpl. eauto.
  - intros league_id Hid H. unfold get_nba_league. rewrite Hid.
    unfold int_getenv. rewrite H. simpl. eauto.
  - intros league_id year Hid Hy Hbad. unfold get_nba_league. rewrite Hid, Hy.
    simpl.
    destruct Hbad as [-> | [-> | [H | H]]].
    + reflexivity.
    + now rewrite andb_false_r.
    + rewrite H. now rewrite andb_false_r.
    + rewrite H. now rewrite andb_false_r.
Qed.

Lemma league_needs_complete_env_witness :
  getenv ClientExample.complete "ESPN_S2" = Some "token"
  /\ BasketballLeague ClientExample.complete 123456 2026 "{swid}" "token"
     = Ok WaiverExample.league.
Proof.
  destruct (league_needs_complete_env ClientExample.complete WaiverExample.league
              eq_refl)
    as (id_text & year_text & league_id & year & swid & s2
        & H1 & H2 & H3 & H4 & H5 & H6 & _ & _ & _ & _ & H7).
  split; [reflexivity|].
  vm_compute in H1, H3, H5, H6.
  injection H1 as <-. injection H3 as <-. injection H5 as <-. injection H6 as <-.
  vm_compute in H2, H4. injection H2 as <-. injection H4 as <-. exact H7.
Defined.

Lemma incomplete_env_fails_before_connecting_witness :
  (exists msg, get_nba_league ClientExample.no_year = Raise (PyError "TypeError" msg))
  /\ get_nba_league ClientExample.empty_s2
     = Raise (PyError "ValueError" "Missing ESPN env vars. Check backend/.env").
Proof.
  split.
  - apply (proj1 (proj2 (incomplete_env_fails_before_connecting ClientExample.no_year))
             123456); reflexivity.
  - apply (proj2 (proj2 (incomplete_env_fails_before_connecting ClientExample.empty_s2))
             123456 2026); [reflexivity | reflexivity |].
    right. right. right. reflexivity.
Defined.

(** When [get_nba_league] raises, the teams route and the waiver route
    answer 400 with their fixed messages, while the roster route lets the
    exception through as it is; none of them touches the cache or queries
    the scoreboard. *)
Theorem league_failure_by_route e err w tid limit pool_size days drop_player_id s :
  get_nba_league e = Raise err ->
  nba_teams (get_nba_league e) days s
  = (Raise (HTTPException 400
              "ESPN auth failed. Check SWID/ESPN_S2 cookies and league access."), s)
  /\ waiver_recommendations w (get_nba_league e) tid limit pool_size days
       drop_player_id s
     = (Raise (HTTPException 400 "ESPN auth failed."), s)
  /\ nba_roster w (get_nba_league e) tid days s = (Raise err, s).
Proof.
  intros ->. split; [|split]; reflexivity.
Qed.

Lemma league_failure_by_route_witness :
  nba_teams (get_nba_league ClientExample.empty_s2) 7 empty_state
  = (Raise (HTTPException 400
              "ESPN auth failed. Check SWID/ESPN_S2 cookies and league access."),
     empty_state)
  /\ nba_roster WaiverExample.world (get_nba_league ClientExample.empty_s2) 1 21
       empty_state
     = (Raise (PyError "ValueError" "Missing ESPN env vars. Check backend/.env"),
        empty_state).
Proof.
  destruct (league_failure_by_route ClientExample.empty_s2 _ WaiverExample.world
              1 10 300 21 None empty_state eq_refl) as (H1 & _ & H3).
  destruct (league_failure_by_route ClientExample.empty_s2 _ WaiverExample.world
              1 10 300 7 None empty_state eq_refl) as (H1' & _ & _).
  split; [exact H1' | exact H3].
Defined.

(** ** What the matching loop returns, for any limit *)


Lemma first_beaten_In pts x dps dp :
  first_beaten pts x dps = Some dp -> In dp dps /\ (pts dp < x)%Q.
Proof.
  intros H. apply first_beaten_spec in H as (l1 & l2 & -> & Hlt & _).
  split; [|assumption]. apply in_or_app. right. now left.
Qed.

Section Matching.

Variable K : TeamScheduleCache.
Variable w : World.
Variables days limit : Z.
Variable dps : list Player.

Let pts := fun p => points_in K w p days.

(** Every recommendation pairs a free agent of [fas0] with a drop candidate
    of strictly fewer points. *)
Lemma match_in_pairs fas0 : forall fas recs used,
  (forall fa, In fa fas -> In fa fas0) ->
  Forall (fun r => exists fa dp, In fa fas0 /\ In dp dps /\ (pts dp < pts fa)%Q
                                 /\ r = recommendation_in K w days fa dp) recs ->
  Forall (fun r => exists fa dp, In fa fas0 /\ In dp dps /\ (pts dp < pts fa)%Q
                                 /\ r = recommendation_in K w days fa dp)
         (match_in K w days limit dps fas recs used).
Proof.
  induction fas as [|fa fas IH]; intros recs used Hsub Hrecs; simpl; [assumption|].
  assert (Hsub' : forall x, In x fas -> In x fas0) by (intros x Hx; apply Hsub; now right).
  destruct (bool_decide _); [now apply IH|].
  unfold scan_in. destruct (first_beaten _ _ dps) as [dp|] eqn:E; simpl.
  - apply first_beaten_In in E as [Hdp Hlt].
    assert (Hrecs' : Forall (fun r => exists fa dp, In fa fas0 /\ In dp dps
                                        /\ (pts dp < pts fa)%Q
                                        /\ r = recommendation_in K w days fa dp)
                            (recs ++ [recommendation_in K w days fa dp])).
    { apply Forall_app. split; [assumption|]. constructor; [|constructor].
      exists fa, dp. repeat split; try assumption. apply Hsub. now left. }
    destruct (_ <=? _); [assumption | now apply IH].
  - destruct (_ <=? _); [assumption | now apply IH].
Qed.



End Matching.



(** When a forced id is found on the roster and the window ends at an
    instant [datetime] can hold, every recommendation drops that player and
    no other. *)
Theorem forced_drop_is_every_drop w league tid limit pool_size days i s
    team p0 rest p :
  find (fun t => team_id t =? tid) (teams league) = Some team ->
  filter (fun q => is_unavailable q = false) (roster team) = p0 :: rest ->
  find_forced_drop (p0 :: rest) i = Some p ->
  window_ok w days = true ->
  let K := cache_after w days DEFAULT_TTL (cache s) in
  exists recs s',
    waiver_recommendations w (Ok league) tid limit pool_size days (Some i) s
    = (Ok (FullResponse (team_name team) days (Some i)
             [packed_in K w p days false] recs), s')
    /\ Forall (fun r => drop r = packed_in K w p days true
                        /\ out_playerId (drop r) = Some i) recs.
Proof.
  intros Hteam Hroster Hfind Hwin K.
  destruct (waiver_recommendations_run w league tid limit pool_size days
              (Some i) s team p0 rest (Some p) Hwin Hteam Hroster)
    as (s' & E).
  { split; [exact Hfind | eauto]. }
  fold K in E.
  set (fas := sorted_in (fun q => points_in K w q days) true
                (filter (fun q => is_unavailable q = false)
                   (free_agents league pool_size))) in E.
  exists (match_in K w days limit [p] fas [] ∅), s'. split; [exact E|].
  eapply Forall_impl.
  - apply (match_in_pairs K w days limit [p] fas fas [] ∅); [auto | constructor].
  - intros r (fa & dp & _ & [<-|[]] & _ & ->). split; [reflexivity|].
    simpl. now apply find_forced_drop_Some in Hfind as [_ Hid].
Qed.

(** ** The further properties at concrete inputs *)

Lemma normalize_accepts_padded_mixed_case_witness :
  normalize_team_abbrev (Some "  gsw ") = Some "GSW"
  /\ normalize_team_abbrev (Some " Pho") = Some "PHX".
Proof.
  split.
  - apply (proj1 (normalize_accepts_padded_mixed_case "  " "gsw" " " eq_refl eq_refl)
             "GSW"); [|reflexivity].
    apply is_nba_team_In. reflexivity.
  - apply (proj2 (normalize_accepts_padded_mixed_case " " "Pho" "" eq_refl eq_refl)
             "PHO" "PHX"); [|reflexivity].
    right. right. right. left. reflexivity.
Defined.



Lemma forced_drop_is_every_drop_witness :
  exists used recs s',
    waiver_recommendations WaiverExample.world (Ok WaiverExample.league)
      1 10 300 21 (Some 2) empty_state
    = (Ok (FullResponse "Team One" 21 (Some 2) used recs), s')
    /\ Forall (fun r => out_playerId (drop r) = Some 2) recs.
Proof.
  destruct (forced_drop_is_every_drop WaiverExample.world WaiverExample.league
              1 10 300 21 2 empty_state _ _ _ WaiverExample.P2 eq_refl eq_refl eq_refl
              eq_refl)
    as (recs & s' & E & Hall).
  eexists _, recs, s'. split; [exact E|].
  eapply Forall_impl; [exact Hall|]. now intros r [_ H].
Defined.

(** ** Rounding keeps the order *)







